(** * cpuminer-opt SIMD utilities: 128 bit (simd-128.h) and 512 bit vectors

    A shallow embedding of the vector utility macros and inline functions of
    [simd-utils/simd-128.h] and of the 512 bit header, together with the
    properties of rotation, byte swap, shuffle, ternary logic, diagonal
    blend, constant construction, insert/extract and the block memory
    helpers.

    A vector register is the integer whose binary digits are the bits of the
    register (bit 0 is the least significant bit of element 0).  An element
    ("lane") of width [w] at index [i] is the bit field [w*i .. w*i+w-1].
    The Intel intrinsics that the headers call are not part of the
    repository; module [Intrin] transcribes the operation pseudo code of the
    Intel Intrinsics Guide for each of them. *)

From Stdlib Require Import ZArith List Lia Bool.
Import ListNotations.
Local Open Scope Z_scope.

(* ================================================================== *)
(** * Bit patterns, elements and element-wise construction *)

(** Element [i] of width [w] of the bit pattern [v]. *)
Definition lane (w i v : Z) : Z := Z.land (Z.shiftr v (w * i)) (Z.ones w).

(** Bit [i] of [v] as the integer 0 or 1. *)
Definition bit (v i : Z) : Z := Z.b2z (Z.testbit v i).

(** The truth table index of bit position [n] of three operands:
    [a*4 + b*2 + c]. *)
Definition tt_index (a b c n : Z) : Z := 4 * bit a n + 2 * bit b n + bit c n.

(** The bit pattern whose elements of width [w] are the members of [ls],
    element 0 first, each truncated to [w] bits. *)
Fixpoint pack (w : Z) (ls : list Z) : Z :=
  match ls with
  | [] => 0
  | x :: r => Z.lor (Z.land x (Z.ones w)) (Z.shiftl (pack w r) w)
  end.

(** The indices [0; 1; ...; n-1]. *)
Definition zseq (n : nat) : list Z := map Z.of_nat (seq 0 n).

(** [FOR j := 0 to n-1: dst[w*j+w-1 : w*j] := f j]. *)
Definition build (w : Z) (n : nat) (f : Z -> Z) : Z := pack w (map f (zseq n)).

(** A value that fits a register of [bits] bits. *)
Definition vec (bits v : Z) : Prop := 0 <= v < 2 ^ bits.

(** A C [uint32_t] / [uint64_t] argument. *)
Definition u32 (x : Z) : Prop := 0 <= x < 2 ^ 32.
Definition u64 (x : Z) : Prop := 0 <= x < 2 ^ 64.

(** An element taken from an optional source index: [None] stands for an
    element that is cleared. *)
Definition pick (w v : Z) (s : option Z) : Z :=
  match s with
  | Some t => lane w t v
  | None => 0
  end.

(** Element [j] of the result is element [src j] of [v], or zero. *)
Definition gather (w : Z) (n : nat) (src : Z -> option Z) (v : Z) : Z :=
  build w n (fun j => pick w v (src j)).

(** Decidable checks over the index range [0 .. n-1]. *)
Definition all_below (n : nat) (P : Z -> bool) : bool := forallb P (zseq n).

Definition opt_eqb (a b : option Z) : bool :=
  match a, b with
  | Some x, Some y => x =? y
  | None, None => true
  | _, _ => false
  end.

(** [src2] after [src1] maps every index to itself. *)
Definition undoes (n : nat) (src2 src1 : Z -> option Z) : bool :=
  all_below n (fun j =>
    match src2 j with
    | Some s =>
        (0 <=? s) && (s <? Z.of_nat n) &&
        match src1 s with Some t => t =? j | None => false end
    | None => false
    end).

(** Two source maps agree on the index range. *)
Definition same_src (n : nat) (s1 s2 : Z -> option Z) : bool :=
  all_below n (fun j => opt_eqb (s1 j) (s2 j)).

(** Every selected source index is inside the range. *)
Definition src_in_range (n : nat) (s : Z -> option Z) : bool :=
  all_below n (fun j =>
    match s j with
    | Some t => (0 <=? t) && (t <? Z.of_nat n)
    | None => true
    end).

(* ================================================================== *)
(** * Intel intrinsics

    Each definition follows the "Operation" pseudo code of the Intel
    Intrinsics Guide.  An immediate operand is an [int] of which the
    instruction encodes the low 8 bits. *)

Module Intrin.

Definition imm8 (c : Z) : Z := Z.land c 255.

(** ** Bitwise logic (any width) *)

Definition _mm_or_si128 (a b : Z) : Z := Z.lor a b.
Definition _mm_xor_si128 (a b : Z) : Z := Z.lxor a b.
Definition _mm_and_si128 (a b : Z) : Z := Z.land a b.
Definition _mm_setzero_si128 : Z := 0.
Definition _mm512_xor_si512 (a b : Z) : Z := Z.lxor a b.
Definition _mm512_setzero_si512 : Z := 0.

(** ** Element-wise shifts and rotations by an immediate

    [psrli w n] is [_mm*_srli_epi<w>] on [n] elements:
    [IF imm8[7:0] > w-1 THEN dst := 0 ELSE dst := ZeroExtend(a >> imm8)]. *)
Definition psrli (w : Z) (n : nat) (a c : Z) : Z :=
  build w n (fun j =>
    if imm8 c >? w - 1 then 0 else Z.shiftr (lane w j a) (imm8 c)).

Definition pslli (w : Z) (n : nat) (a c : Z) : Z :=
  build w n (fun j =>
    if imm8 c >? w - 1 then 0 else Z.shiftl (lane w j a) (imm8 c)).

(** [RIGHT_ROTATE(src, count_src)]:
    [count := count_src % w; RETURN (src >> count) OR (src << (w - count))]. *)
Definition right_rotate (w src count_src : Z) : Z :=
  let count := count_src mod w in
  Z.land (Z.lor (Z.shiftr src count) (Z.shiftl src (w - count))) (Z.ones w).

Definition left_rotate (w src count_src : Z) : Z :=
  let count := count_src mod w in
  Z.land (Z.lor (Z.shiftl src count) (Z.shiftr src (w - count))) (Z.ones w).

Definition prori (w : Z) (n : nat) (a c : Z) : Z :=
  build w n (fun j => right_rotate w (lane w j a) (imm8 c)).

Definition proli (w : Z) (n : nat) (a c : Z) : Z :=
  build w n (fun j => left_rotate w (lane w j a) (imm8 c)).

Definition _mm_srli_epi16 := psrli 16 8.
Definition _mm_slli_epi16 := pslli 16 8.
Definition _mm_srli_epi32 := psrli 32 4.
Definition _mm_slli_epi32 := pslli 32 4.
Definition _mm_srli_epi64 := psrli 64 2.
Definition _mm_slli_epi64 := pslli 64 2.
Definition _mm_ror_epi64 := prori 64 2.
Definition _mm_rol_epi64 := proli 64 2.
Definition _mm_ror_epi32 := prori 32 4.
Definition _mm_rol_epi32 := proli 32 4.
Definition _mm512_ror_epi64 := prori 64 8.
Definition _mm512_rol_epi64 := proli 64 8.
Definition _mm512_ror_epi32 := prori 32 16.
Definition _mm512_rol_epi32 := proli 32 16.

(** ** Whole register byte shifts

    [tmp := imm8[7:0]; IF tmp > 15 THEN tmp := 16; dst := a >> (tmp*8)]. *)
Definition _mm_srli_si128 (a c : Z) : Z :=
  let tmp := if imm8 c >? 15 then 16 else imm8 c in
  Z.land (Z.shiftr a (tmp * 8)) (Z.ones 128).

Definition _mm_slli_si128 (a c : Z) : Z :=
  let tmp := if imm8 c >? 15 then 16 else imm8 c in
  Z.land (Z.shiftl a (tmp * 8)) (Z.ones 128).

(** ** Concatenate and shift right

    [tmp[255:0] := ((a << 128) OR b) >> (imm8*8); dst := tmp[127:0]]. *)
Definition _mm_alignr_epi8 (a b c : Z) : Z :=
  Z.land (Z.shiftr (Z.lor (Z.shiftl a 128) b) (imm8 c * 8)) (Z.ones 128).

(** [temp[1023:512] := a; temp[511:0] := b;
     temp := temp >> (64*imm8[2:0]); dst := temp[511:0]]. *)
Definition _mm512_alignr_epi64 (a b c : Z) : Z :=
  Z.land (Z.shiftr (Z.lor (Z.shiftl a 512) b) (64 * Z.land c 7)) (Z.ones 512).

(** As above with [32*imm8[3:0]]. *)
Definition _mm512_alignr_epi32 (a b c : Z) : Z :=
  Z.land (Z.shiftr (Z.lor (Z.shiftl a 512) b) (32 * Z.land c 15)) (Z.ones 512).

(** ** Shuffles controlled by an immediate *)

(** [dst[32*j+31:32*j] := SELECT4(a[127:0], imm8[2*j+1:2*j])]. *)
Definition _mm_shuffle_epi32 (a c : Z) : Z :=
  build 32 4 (fun j => lane 32 (lane 2 j (imm8 c)) a).



(** Low four words selected by [imm8], high 64 bits copied. *)
Definition _mm_shufflelo_epi16 (a c : Z) : Z :=
  build 16 8 (fun j =>
    if j <? 4 then lane 16 (lane 2 j (imm8 c)) a else lane 16 j a).

(** Low 64 bits copied, high four words selected by [imm8]. *)
Definition _mm_shufflehi_epi16 (a c : Z) : Z :=
  build 16 8 (fun j =>
    if j <? 4 then lane 16 j a else lane 16 (4 + lane 2 (j - 4) (imm8 c)) a).

(** ** Shuffles controlled by a vector *)

(** [IF b[i+7] == 1 THEN dst[i+7:i] := 0
     ELSE index[3:0] := b[i+3:i]; dst[i+7:i] := a[index*8+7:index*8]]. *)
Definition _mm_shuffle_epi8 (a b : Z) : Z :=
  build 8 16 (fun j =>
    let c := lane 8 j b in
    if Z.testbit c 7 then 0 else lane 8 (Z.land c 15) a).

(** [index[5:0] := b[i+3:i] + (j & 0x30)]: the selection stays inside the
    128 bit lane of the destination byte. *)
Definition _mm512_shuffle_epi8 (a b : Z) : Z :=
  build 8 64 (fun j =>
    let c := lane 8 j b in
    if Z.testbit c 7 then 0 else lane 8 (Z.land c 15 + Z.land j 48) a).

(** [id := idx[i+4:i]*16; dst[i+15:i] := a[id+15:id]]. *)
Definition _mm512_permutexvar_epi16 (idx a : Z) : Z :=
  build 16 32 (fun j => lane 16 (Z.land (lane 16 j idx) 31) a).


(** ** Blends: [IF k[j] THEN dst[j] := b[j] ELSE dst[j] := a[j]] *)

Definition pblend (w : Z) (n : nat) (k a b : Z) : Z :=
  build w n (fun j => if Z.testbit k j then lane w j b else lane w j a).

Definition _mm512_mask_blend_epi64 (k a b : Z) : Z := pblend 64 8 k a b.
Definition _mm512_mask_blend_epi32 (k a b : Z) : Z := pblend 32 16 k a b.
Definition _mm_blend_epi32 (a b c : Z) : Z := pblend 32 4 (imm8 c) a b.
Definition _mm_blend_epi16 (a b c : Z) : Z := pblend 16 8 (imm8 c) a b.

(** ** Ternary logic

    [FOR j: FOR h := 0 to w-1:
       index[2:0] := (a[i+h] << 2) OR (b[i+h] << 1) OR c[i+h];
       dst[i+h] := imm8[index[2:0]]]. *)
Definition pternlog (w : Z) (n : nat) (a b c imm : Z) : Z :=
  build w n (fun j =>
    build 1 (Z.to_nat w) (fun h =>
      let i := w * j + h in
      let index :=
        Z.lor (Z.lor (Z.shiftl (bit a i) 2) (Z.shiftl (bit b i) 1)) (bit c i)
      in bit (imm8 imm) index)).

Definition _mm_ternarylogic_epi64 := pternlog 64 2.
Definition _mm512_ternarylogic_epi64 := pternlog 64 8.
Definition _mm512_ternarylogic_epi32 := pternlog 32 16.

(** ** Element insertion and register construction *)

(** [dst[63:0] := e0; dst[127:64] := e1]. *)
Definition _mm_set_epi64x (e1 e0 : Z) : Z := pack 64 [e0; e1].

(** [dst := a; sel := imm8[0]*64; dst[sel+63:sel] := i[63:0]]. *)
Definition _mm_insert_epi64 (a i c : Z) : Z :=
  build 64 2 (fun j => if j =? Z.land c 1 then i else lane 64 j a).

(** [tmp1 := b element imm8[7:6]; tmp2 := a with element imm8[5:4] replaced
    by tmp1; dst element j := IF imm8[j] THEN 0 ELSE tmp2 element j].  The
    casts between the integer and the float view of a register do not
    change its bits. *)
Definition _mm_insert_ps (a b c : Z) : Z :=
  let tmp1 := lane 32 (lane 2 3 (imm8 c)) b in
  build 32 4 (fun j =>
    if Z.testbit (imm8 c) j then 0
    else if j =? lane 2 2 (imm8 c) then tmp1 else lane 32 j a).

Definition _mm_castsi128_ps (a : Z) : Z := a.
Definition _mm_castps_si128 (a : Z) : Z := a.

(** [_MM_SHUFFLE(z, y, x, w) = (z<<6) | (y<<4) | (x<<2) | w]. *)
Definition _MM_SHUFFLE (z y x w : Z) : Z :=
  Z.lor (Z.lor (Z.lor (Z.shiftl z 6) (Z.shiftl y 4)) (Z.shiftl x 2)) w.

(** ** Element-wise addition and subtraction (wrapping) *)

Definition padd (w : Z) (n : nat) (a b : Z) : Z :=
  build w n (fun j => lane w j a + lane w j b).

Definition psub (w : Z) (n : nat) (a b : Z) : Z :=
  build w n (fun j => lane w j a - lane w j b).

Definition _mm_add_epi64 := padd 64 2.
Definition _mm_add_epi32 := padd 32 4.
Definition _mm_add_epi16 := padd 16 8.
Definition _mm_sub_epi64 := psub 64 2.
Definition _mm_sub_epi32 := psub 32 4.
Definition _mm_sub_epi16 := psub 16 8.
Definition _mm512_add_epi64 := padd 64 8.
Definition _mm512_add_epi32 := padd 32 16.
Definition _mm512_add_epi16 := padd 16 32.
Definition _mm512_sub_epi64 := psub 64 8.
Definition _mm512_sub_epi32 := psub 32 16.
Definition _mm512_sub_epi16 := psub 16 32.

(** ** Two source shuffles of the floating point domain

    [dst[63:0] := imm8[0] ? a[127:64] : a[63:0];
     dst[127:64] := imm8[1] ? b[127:64] : b[63:0]]. *)
Definition _mm_shuffle_pd (a b c : Z) : Z :=
  build 64 2 (fun j =>
    if j =? 0 then lane 64 (bit (imm8 c) 0) a else lane 64 (bit (imm8 c) 1) b).

(** [dst[31:0] := SELECT4(a, imm8[1:0]); dst[63:32] := SELECT4(a, imm8[3:2]);
     dst[95:64] := SELECT4(b, imm8[5:4]); dst[127:96] := SELECT4(b, imm8[7:6])]. *)
Definition _mm_shuffle_ps (a b c : Z) : Z :=
  build 32 4 (fun j =>
    if j <? 2 then lane 32 (lane 2 j (imm8 c)) a
    else lane 32 (lane 2 j (imm8 c)) b).

Definition _mm_castsi128_pd (a : Z) : Z := a.
Definition _mm_castpd_si128 (a : Z) : Z := a.

(** ** Broadcasts and 128 bit lane permutation at 512 bits *)

(** [dst[j] := a[w-1:0]] for every element [j]. *)
Definition pbroadcast (w : Z) (n : nat) (a : Z) : Z :=
  build w n (fun _ => lane w 0 a).

Definition _mm512_broadcastq_epi64 := pbroadcast 64 8.
Definition _mm512_broadcastd_epi32 := pbroadcast 32 16.
Definition _mm512_broadcastw_epi16 := pbroadcast 16 32.
Definition _mm512_broadcastb_epi8 := pbroadcast 8 64.

(** The cast of a 128 bit register to 512 bits leaves the upper 384 bits
    undefined; [undef] stands for whatever they hold. *)
Definition _mm512_castsi128_si512 (undef a : Z) : Z :=
  pack 128 [a; lane 128 0 undef; lane 128 1 undef; lane 128 2 undef].

(** [dst[127:0] := SELECT4(a, imm8[1:0]); dst[255:128] := SELECT4(a, imm8[3:2]);
     dst[383:256] := SELECT4(b, imm8[5:4]); dst[511:384] := SELECT4(b, imm8[7:6])]. *)
Definition _mm512_shuffle_i64x2 (a b c : Z) : Z :=
  build 128 4 (fun j =>
    if j <? 2 then lane 128 (lane 2 j (imm8 c)) a
    else lane 128 (lane 2 j (imm8 c)) b).

(** [IF k[j] THEN dst[j] := all ones ELSE dst[j] := 0]. *)
Definition _mm512_movm_epi64 (k : Z) : Z :=
  build 64 8 (fun j => if Z.testbit k j then Z.ones 64 else 0).

(** The byte align inside each 128 bit lane. *)
Definition _mm512_alignr_epi8 (a b c : Z) : Z :=
  build 128 4 (fun l => _mm_alignr_epi8 (lane 128 l a) (lane 128 l b) c).

End Intrin.

Import Intrin.

(* ================================================================== *)
(** * Capability tiers

    The headers select among alternative definitions with [#if defined] on
    the instruction set macros of the compiler.  The selection is an
    explicit argument here. *)

Record tier : Type := Tier {
  has_SSSE3 : bool;
  has_SSE4_1 : bool;
  has_AVX : bool;
  has_AVX2 : bool;
  has_AVX512VL : bool
}.

Definition tier_sse2 : tier := Tier false false false false false.
Definition tier_ssse3 : tier := Tier true false false false false.
Definition tier_sse41 : tier := Tier true true false false false.
Definition tier_avx2 : tier := Tier true true true true false.
Definition tier_avx512 : tier := Tier true true true true true.

(* ================================================================== *)
(** * simd-128.h *)

(** [movq] / [vmovq] from a general register: the low 64 bits are the
    argument, the remaining bits of the register are cleared.  The AVX and
    the legacy encoding differ in nothing that is visible in 128 bits. *)
Definition mm128_mov64_128 (n : Z) : Z := Z.land n (Z.ones 64).
Definition mm128_mov32_128 (n : Z) : Z := Z.land n (Z.ones 32).
Definition u64_mov128_64 (a : Z) : Z := lane 64 0 a.
Definition u32_mov128_32 (a : Z) : Z := lane 32 0 a.

Definition m128_const_i128 (i : Z) : Z := mm128_mov64_128 i.
Definition m128_const1_64 (i : Z) : Z :=
  _mm_shuffle_epi32 (mm128_mov64_128 i) 0x44.
Definition m128_const1_32 (i : Z) : Z :=
  _mm_shuffle_epi32 (mm128_mov32_128 i) 0x00.

Definition m128_const_64 (t : tier) (hi lo : Z) : Z :=
  if has_SSE4_1 t then _mm_insert_epi64 (mm128_mov64_128 lo) hi 1
  else _mm_set_epi64x hi lo.

Definition m128_zero : Z := _mm_setzero_si128.
Definition m128_one_128 : Z := mm128_mov64_128 1.
Definition m128_one_64 : Z := _mm_shuffle_epi32 (mm128_mov64_128 1) 0x44.
Definition m128_one_32 : Z := _mm_shuffle_epi32 (mm128_mov32_128 1) 0x00.

(** [pcmpeqq %0, %0]: every bit set. *)
Definition m128_neg1 : Z := Z.ones 128.

(** Defined under SSE4.1 only. *)
Definition mm128_xim_32 (v1 v2 c : Z) : Z :=
  _mm_castps_si128 (_mm_insert_ps (_mm_castsi128_ps v1) (_mm_castsi128_ps v2) c).

Definition mm128_insert_32 (v i c : Z) : Z :=
  mm128_xim_32 v (mm128_mov32_128 i) (Z.shiftl c 4).

Definition mm128_extract_32 (v c : Z) : Z :=
  u32_mov128_32 (mm128_xim_32 v v (Z.shiftl c 6)).

Definition mm128_mask_32 (v m : Z) : Z := mm128_xim_32 v v m.

Definition mm128_not (v : Z) : Z := _mm_xor_si128 v m128_neg1.

Definition mm128_xor4 (a b c d : Z) : Z :=
  _mm_xor_si128 (_mm_xor_si128 a b) (_mm_xor_si128 c d).

(** ** Memory

    Memory is byte addressed; a vector occupies consecutive bytes, element 0
    at the lowest address.  [p[i]] for a pointer to [bytes]-byte vectors is
    the slot at address [p + bytes*i]. *)
Definition mem : Type := Z -> Z.

Definition store (bytes : nat) (m : mem) (p v : Z) : mem :=
  fun a =>
    if (p <=? a) && (a <? p + Z.of_nat bytes) then lane 8 (a - p) v else m a.

Definition load (bytes : nat) (m : mem) (p : Z) : Z :=
  build 8 bytes (fun j => m (p + j)).

(** [for ( int i = 0; i < n; i++ ) body]. *)
Definition for_loop {S : Type} (n : Z) (body : Z -> S -> S) (s : S) : S :=
  fold_left (fun st i => body i st) (zseq (Z.to_nat n)) s.

Definition memset_zero_128 (m : mem) (dst n : Z) : mem :=
  for_loop n (fun i m => store 16 m (dst + 16 * i) m128_zero) m.

Definition memset_128 (m : mem) (dst a n : Z) : mem :=
  for_loop n (fun i m => store 16 m (dst + 16 * i) a) m.

Definition memcpy_128 (m : mem) (dst src n : Z) : mem :=
  for_loop n (fun i m => store 16 m (dst + 16 * i) (load 16 m (src + 16 * i))) m.

(** ** Ternary logic at 128 bits *)

Definition mm128_xor3 (t : tier) (a b c : Z) : Z :=
  if has_AVX512VL t then _mm_ternarylogic_epi64 a b c 0x96
  else _mm_xor_si128 a (_mm_xor_si128 b c).

Definition mm128_xorand (t : tier) (a b c : Z) : Z :=
  if has_AVX512VL t then _mm_ternarylogic_epi64 a b c 0x78
  else _mm_xor_si128 a (_mm_and_si128 b c).

(** ** Diagonal blend of four vectors

    The macro parameters are [v3 .. v0] but the replacement text names
    [s3 .. s0], which are therefore whatever objects of these names the place
    of use has in scope; they are arguments of their own here.  The outer
    call is spelled [mm_blend_epi32] ([mm_blend_epi16]) in the header and is
    read as the intrinsic.  No definition exists below SSE4.1. *)
Definition mm128_diagonal_32 (t : tier) (s3 s2 s1 s0 : Z) (v3 v2 v1 v0 : Z)
  : option Z :=
  if has_AVX2 t then
    Some (_mm_blend_epi32 (_mm_blend_epi32 s3 s2 0x4)
                          (_mm_blend_epi32 s1 s0 0x1) 0x3)
  else if has_SSE4_1 t then
    Some (_mm_blend_epi16 (_mm_blend_epi16 s3 s2 0x30)
                          (_mm_blend_epi16 s1 s0 0x03) 0x0f)
  else None.

(** ** Bit rotations *)

Definition mm128_ror_64 (t : tier) (v c : Z) : Z :=
  if has_AVX512VL t then _mm_ror_epi64 v c
  else _mm_or_si128 (_mm_srli_epi64 v c) (_mm_slli_epi64 v (64 - c)).

Definition mm128_rol_64 (t : tier) (v c : Z) : Z :=
  if has_AVX512VL t then _mm_rol_epi64 v c
  else _mm_or_si128 (_mm_slli_epi64 v c) (_mm_srli_epi64 v (64 - c)).

Definition mm128_ror_32 (t : tier) (v c : Z) : Z :=
  if has_AVX512VL t then _mm_ror_epi32 v c
  else _mm_or_si128 (_mm_srli_epi32 v c) (_mm_slli_epi32 v (32 - c)).

Definition mm128_rol_32 (t : tier) (v c : Z) : Z :=
  if has_AVX512VL t then _mm_rol_epi32 v c
  else _mm_or_si128 (_mm_slli_epi32 v c) (_mm_srli_epi32 v (32 - c)).

(** The SSE2 bodies call [_mm_or_si256], a name that no header declares; its
    operands are 128 bit registers and it is read as the bitwise OR. *)
Definition _mm_or_si256 (a b : Z) : Z := Z.lor a b.

(** The double buffered macros are statements over the variables [v1] and
    [v0]; the result is the pair of their final values [(v1, v0)].  Under
    AVX512VL the replacement text is two expression statements whose values
    are dropped. *)
Definition mm128_rorx2_64 (t : tier) (v1 v0 c : Z) : Z * Z :=
  if has_AVX512VL t then
    let _ := _mm_ror_epi64 v0 c in
    let _ := _mm_ror_epi64 v1 c in
    (v1, v0)
  else
    let t0 := _mm_srli_epi64 v0 c in
    let t1 := _mm_srli_epi64 v1 c in
    let v0 := _mm_slli_epi64 v0 (64 - c) in
    let v1 := _mm_slli_epi64 v1 (64 - c) in
    let v0 := _mm_or_si256 v0 t0 in
    let v1 := _mm_or_si256 v1 t1 in
    (v1, v0).

Definition mm128_rolx2_64 (t : tier) (v1 v0 c : Z) : Z * Z :=
  if has_AVX512VL t then
    let _ := _mm_rol_epi64 v0 c in
    let _ := _mm_rol_epi64 v1 c in
    (v1, v0)
  else
    let t0 := _mm_slli_epi64 v0 c in
    let t1 := _mm_slli_epi64 v1 c in
    let v0 := _mm_srli_epi64 v0 (64 - c) in
    let v1 := _mm_srli_epi64 v1 (64 - c) in
    let v0 := _mm_or_si256 v0 t0 in
    let v1 := _mm_or_si256 v1 t1 in
    (v1, v0).

Definition mm128_rorx2_32 (t : tier) (v1 v0 c : Z) : Z * Z :=
  if has_AVX512VL t then
    let _ := _mm_ror_epi32 v0 c in
    let _ := _mm_ror_epi32 v1 c in
    (v1, v0)
  else
    let t0 := _mm_srli_epi32 v0 c in
    let t1 := _mm_srli_epi32 v1 c in
    let v0 := _mm_slli_epi32 v0 (32 - c) in
    let v1 := _mm_slli_epi32 v1 (32 - c) in
    let v0 := _mm_or_si256 v0 t0 in
    let v1 := _mm_or_si256 v1 t1 in
    (v1, v0).

Definition mm128_rolx2_32 (t : tier) (v1 v0 c : Z) : Z * Z :=
  if has_AVX512VL t then
    let _ := _mm_rol_epi32 v0 c in
    let _ := _mm_rol_epi32 v1 c in
    (v1, v0)
  else
    let t0 := _mm_slli_epi32 v0 c in
    let t1 := _mm_slli_epi32 v1 c in
    let v0 := _mm_srli_epi32 v0 (32 - c) in
    let v1 := _mm_srli_epi32 v1 (32 - c) in
    let v0 := _mm_or_si256 v0 t0 in
    let v1 := _mm_or_si256 v1 t1 in
    (v1, v0).

Definition mm128_ror_16 (v c : Z) : Z :=
  _mm_or_si128 (_mm_srli_epi16 v c) (_mm_slli_epi16 v (16 - c)).

Definition mm128_rol_16 (v c : Z) : Z :=
  _mm_or_si128 (_mm_slli_epi16 v c) (_mm_srli_epi16 v (16 - c)).

(** ** Rotation of elements across the register *)

Definition mm128_swap_64 (v : Z) : Z := _mm_shuffle_epi32 v 0x4e.
Definition mm128_shuflr_64 : Z -> Z := mm128_swap_64.
Definition mm128_shufll_64 : Z -> Z := mm128_swap_64.
Definition mm128_shuflr_32 (v : Z) : Z := _mm_shuffle_epi32 v 0x39.
Definition mm128_shufll_32 (v : Z) : Z := _mm_shuffle_epi32 v 0x93.

(** Defined under SSSE3 only. *)
Definition mm128_shuflr_x8 (v c : Z) : Z := _mm_alignr_epi8 v v c.

(** ** Rotation of bytes inside 64 or 32 bit elements *)

Definition mm128_swap64_32 (v : Z) : Z := _mm_shuffle_epi32 v 0xb1.
Definition mm128_shuflr64_32 : Z -> Z := mm128_swap64_32.
Definition mm128_shufll64_32 : Z -> Z := mm128_swap64_32.

Definition mm128_shuflr64_24 (t : tier) (v : Z) : Z :=
  if has_SSSE3 t && negb (has_AVX512VL t) then
    _mm_shuffle_epi8 v (_mm_set_epi64x 0x0a09080f0e0d0c0b 0x0201000706050403)
  else mm128_ror_64 t v 24.

Definition mm128_shuflr64_16 (t : tier) (v : Z) : Z :=
  if has_SSSE3 t && negb (has_AVX512VL t) then
    _mm_shuffle_epi8 v (_mm_set_epi64x 0x09080f0e0d0c0b0a 0x0100070605040302)
  else mm128_ror_64 t v 16.

Definition mm128_swap32_16 (t : tier) (v : Z) : Z :=
  if has_SSSE3 t && negb (has_AVX512VL t) then
    _mm_shuffle_epi8 v (_mm_set_epi64x 0x0d0c0f0e09080b0a 0x0504070601000302)
  else mm128_ror_32 t v 16.
Definition mm128_shuflr32_16 : tier -> Z -> Z := mm128_swap32_16.
Definition mm128_shufll32_16 : tier -> Z -> Z := mm128_swap32_16.

Definition mm128_shuflr32_8 (t : tier) (v : Z) : Z :=
  if has_SSSE3 t && negb (has_AVX512VL t) then
    _mm_shuffle_epi8 v (_mm_set_epi64x 0x0c0f0e0d080b0a09 0x0407060500030201)
  else mm128_ror_32 t v 8.

(** ** Endian byte swap

    The SSSE3 text of [mm128_bswap_16] lacks the parenthesis that closes the
    call of [_mm_shuffle_epi8]; the expression is taken with it. *)
Definition mm128_bswap_64 (t : tier) (v : Z) : Z :=
  if has_SSSE3 t then
    _mm_shuffle_epi8 v (m128_const_64 t 0x08090a0b0c0d0e0f 0x0001020304050607)
  else
    let v := _mm_or_si128 (_mm_slli_epi16 v 8) (_mm_srli_epi16 v 8) in
    let v := _mm_shufflelo_epi16 v (_MM_SHUFFLE 0 1 2 3) in
    _mm_shufflehi_epi16 v (_MM_SHUFFLE 0 1 2 3).

Definition mm128_bswap_32 (t : tier) (v : Z) : Z :=
  if has_SSSE3 t then
    _mm_shuffle_epi8 v (m128_const_64 t 0x0c0d0e0f08090a0b 0x0405060700010203)
  else
    let v := _mm_or_si128 (_mm_slli_epi16 v 8) (_mm_srli_epi16 v 8) in
    let v := _mm_shufflelo_epi16 v (_MM_SHUFFLE 2 3 0 1) in
    _mm_shufflehi_epi16 v (_MM_SHUFFLE 2 3 0 1).

Definition mm128_bswap_16 (t : tier) (v : Z) : Z :=
  if has_SSSE3 t then
    _mm_shuffle_epi8 v (m128_const_64 t 0x0e0f0c0d0a0b0809 0x0607040502030001)
  else
    _mm_or_si128 (_mm_slli_epi16 v 8) (_mm_srli_epi16 v 8).

(** ** Two input shuffle-rotate *)

Definition mm128_shufl2r_64 (t : tier) (v1 v2 : Z) : Z :=
  if has_SSSE3 t then _mm_alignr_epi8 v2 v1 8
  else _mm_or_si128 (_mm_srli_si128 v1 8) (_mm_slli_si128 v2 8).

Definition mm128_shufl2l_64 (t : tier) (v1 v2 : Z) : Z :=
  if has_SSSE3 t then _mm_alignr_epi8 v1 v2 8
  else _mm_or_si128 (_mm_slli_si128 v1 8) (_mm_srli_si128 v2 8).

(** Procedure macros: the result is the pair of the final [(v1, v2)]. *)
Definition mm128_vror256_64 (t : tier) (v1 v2 : Z) : Z * Z :=
  if has_SSSE3 t then
    let t' := _mm_alignr_epi8 v1 v2 8 in
    let v1 := _mm_alignr_epi8 v2 v1 8 in
    let v2 := t' in
    (v1, v2)
  else
    let t' := _mm_or_si128 (_mm_srli_si128 v1 8) (_mm_slli_si128 v2 8) in
    let v2 := _mm_or_si128 (_mm_srli_si128 v2 8) (_mm_slli_si128 v1 8) in
    let v1 := t' in
    (v1, v2).

Definition mm128_vrol256_64 (t : tier) (v1 v2 : Z) : Z * Z :=
  if has_SSSE3 t then
    let t' := _mm_alignr_epi8 v1 v2 8 in
    let v2 := _mm_alignr_epi8 v2 v1 8 in
    let v1 := t' in
    (v1, v2)
  else
    let t' := _mm_or_si128 (_mm_slli_si128 v1 8) (_mm_srli_si128 v2 8) in
    let v2 := _mm_or_si128 (_mm_slli_si128 v2 8) (_mm_srli_si128 v1 8) in
    let v1 := t' in
    (v1, v2).

(* ================================================================== *)
(** * The 512 bit header (AVX512F, VL, DQ and BW all present) *)

Definition mm512_mov64_512 (n : Z) : Z := mm128_mov64_128 n.
Definition mm512_mov32_512 (n : Z) : Z := mm128_mov32_128 n.

(** The union overlays eight [uint64_t] on the register: [u64[k]] is the
    64 bit element [k]. *)
Definition m512_const_64 (i7 i6 i5 i4 i3 i2 i1 i0 : Z) : Z :=
  pack 64 [i0; i1; i2; i3; i4; i5; i6; i7].

Definition m512_const4_64 (i3 i2 i1 i0 : Z) : Z :=
  pack 64 [i0; i1; i2; i3; i0; i1; i2; i3].

Definition m512_zero : Z := _mm512_setzero_si512.

Definition mm512_not (x : Z) : Z := _mm512_ternarylogic_epi64 x x x 1.

(** ** Memory *)

Definition memset_zero_512 (m : mem) (dst n : Z) : mem :=
  for_loop n (fun i m => store 64 m (dst + 64 * i) m512_zero) m.

Definition memset_512 (m : mem) (dst a n : Z) : mem :=
  for_loop n (fun i m => store 64 m (dst + 64 * i) a) m.

Definition memcpy_512 (m : mem) (dst src n : Z) : mem :=
  for_loop n (fun i m => store 64 m (dst + 64 * i) (load 64 m (src + 64 * i))) m.

(** ** Ternary logic *)

Definition mm512_xor3 (a b c : Z) : Z := _mm512_ternarylogic_epi64 a b c 0x96.
Definition mm512_xor4 (a b c d : Z) : Z := _mm512_xor_si512 a (mm512_xor3 b c d).
Definition mm512_and3 (a b c : Z) : Z := _mm512_ternarylogic_epi64 a b c 0x80.
Definition mm512_or3 (a b c : Z) : Z := _mm512_ternarylogic_epi64 a b c 0xfe.
Definition mm512_xorand (a b c : Z) : Z := _mm512_ternarylogic_epi64 a b c 0x78.
Definition mm512_andxor (a b c : Z) : Z := _mm512_ternarylogic_epi64 a b c 0x60.
Definition mm512_xoror (a b c : Z) : Z := _mm512_ternarylogic_epi64 a b c 0x1e.
Definition mm512_xorandnot (a b c : Z) : Z :=
  _mm512_ternarylogic_epi64 a b c 0xd2.
Definition mm512_orand (a b c : Z) : Z := _mm512_ternarylogic_epi64 a b c 0xf8.
Definition mm512_nor (a b : Z) : Z := _mm512_ternarylogic_epi64 a b b 0x01.
Definition mm512_xnor (a b : Z) : Z := _mm512_ternarylogic_epi64 a b b 0x81.
Definition mm512_nand (a b : Z) : Z := _mm512_ternarylogic_epi64 a b b 0xef.

(** ** Diagonal blends

    The header omits the comma between the two innermost blends of the last
    argument of [mm512_diagonal_64]; the two calls are taken as the two
    operands that the enclosing blend needs.  The masks are the header's. *)
Definition mm512_diagonal_64 (v7 v6 v5 v4 v3 v2 v1 v0 : Z) : Z :=
  _mm512_mask_blend_epi64 0x0f
    (_mm512_mask_blend_epi64 0x30
       (_mm512_mask_blend_epi64 0x40 v7 v6)
       (_mm512_mask_blend_epi64 0x40 v5 v4))
    (_mm512_mask_blend_epi64 0x03
       (_mm512_mask_blend_epi64 0x04 v3 v2)
       (_mm512_mask_blend_epi64 0x01 v1 v0)).

Definition mm512_diagonal128_32 (v3 v2 v1 v0 : Z) : Z :=
  _mm512_mask_blend_epi32 0x3333
    (_mm512_mask_blend_epi32 0x4444 v3 v2)
    (_mm512_mask_blend_epi32 0x1111 v1 v0).

(** ** Bit rotations *)

Definition mm512_ror_64 : Z -> Z -> Z := _mm512_ror_epi64.
Definition mm512_rol_64 : Z -> Z -> Z := _mm512_rol_epi64.
Definition mm512_ror_32 : Z -> Z -> Z := _mm512_ror_epi32.
Definition mm512_rol_32 : Z -> Z -> Z := _mm512_rol_epi32.

(** ** Endian byte swap *)

Definition mm512_bswap_64 (v : Z) : Z :=
  _mm512_shuffle_epi8 v
    (m512_const_64 0x38393a3b3c3d3e3f 0x3031323334353637
                   0x28292a2b2c2d2e2f 0x2021222324252627
                   0x18191a1b1c1d1e1f 0x1011121314151617
                   0x08090a0b0c0d0e0f 0x0001020304050607).

Definition mm512_bswap_32 (v : Z) : Z :=
  _mm512_shuffle_epi8 v
    (m512_const_64 0x3c3d3e3f38393a3b 0x3435363730313233
                   0x2c2d2e2f28292a2b 0x2425262720212223
                   0x1c1d1e1f18191a1b 0x1415161710111213
                   0x0c0d0e0f08090a0b 0x0405060700010203).

Definition mm512_bswap_16 (v : Z) : Z :=
  _mm512_shuffle_epi8 v
    (m512_const_64 0x3e3f3c3d3a3b3839 0x3637343532333031
                   0x2e2f2c2d2a2b2829 0x2627242522232021
                   0x1e1f1c1d1a1b1819 0x1617141512131011
                   0x0e0f0c0d0a0b0809 0x0607040502030001).

(** ** Shuffle-rotate of elements in the 512 bit vector *)

Definition mm512_swap_256 (v : Z) : Z := _mm512_alignr_epi64 v v 4.

(** [#define mm512_shuflr_256( v ) mm512_swap_256]: a macro with one
    parameter whose replacement is the bare function name; the argument is
    dropped and the expansion is the function itself. *)
Definition mm512_shuflr_256 {A : Type} (v : A) : Z -> Z := mm512_swap_256.
Definition mm512_shufll_256 {A : Type} (v : A) : Z -> Z := mm512_swap_256.

Definition mm512_shuflr_128 (v : Z) : Z := _mm512_alignr_epi64 v v 2.
Definition mm512_shufll_128 (v : Z) : Z := _mm512_alignr_epi64 v v 6.
Definition mm512_shuflr_64 (v : Z) : Z := _mm512_alignr_epi64 v v 1.
Definition mm512_shufll_64 (v : Z) : Z := _mm512_alignr_epi64 v v 7.
Definition mm512_shuflr_32 (v : Z) : Z := _mm512_alignr_epi32 v v 1.
Definition mm512_shufll_32 (v : Z) : Z := _mm512_alignr_epi32 v v 15.
Definition mm512_shuflr_x64 (v n : Z) : Z := _mm512_alignr_epi64 v v n.
Definition mm512_shuflr_x32 (v n : Z) : Z := _mm512_alignr_epi32 v v n.

Definition mm512_shuflr_16 (v : Z) : Z :=
  _mm512_permutexvar_epi16
    (m512_const_64 0x0000001f001e001d 0x001c001b001a0019
                   0x0018001700160015 0x0014001300120011
                   0x0010000f000e000d 0x000c000b000a0009
                   0x0008000700060005 0x0004000300020001) v.

Definition mm512_shufll_16 (v : Z) : Z :=
  _mm512_permutexvar_epi16
    (m512_const_64 0x001e001d001c001b 0x001a001900180017
                   0x0016001500140013 0x001200110010000f
                   0x000e000d000c000b 0x000a000900080007
                   0x0006000500040003 0x000200010000001f) v.

(** In both byte tables the header separates two of the eight literals by a
    full stop where the argument list needs a comma; the eight literals are
    taken as the eight arguments. *)
Definition mm512_shuflr_8 (v : Z) : Z :=
  _mm512_shuffle_epi8 v
    (m512_const_64 0x003f3e3d3c3b3a39 0x3837363534333231
                   0x302f2e2d2c2b2a29 0x2827262524232221
                   0x201f1e1d1c1b1a19 0x1817161514131211
                   0x100f0e0d0c0b0a09 0x0807060504030201).

Definition mm512_shufll_8 (v : Z) : Z :=
  _mm512_shuffle_epi8 v
    (m512_const_64 0x3e3d3c3b3a393837 0x363534333231302f
                   0x2e2d2c2b2a292827 0x262524232221201f
                   0x1e1d1c1b1a191817 0x161514131211100f
                   0x0e0d0c0b0a090807 0x060504030201003f).

(** ** Rotation of elements inside 256 bit lanes *)





Definition mm512_shuflr256_16 (v : Z) : Z :=
  _mm512_permutexvar_epi16
    (m512_const_64 0x00100001001e001d 0x001c001b001a0019
                   0x0018001700160015 0x0014001300120011
                   0x0000000f000e000d 0x000c000b000a0009
                   0x0008000700060005 0x0004000300020001) v.

Definition mm512_shufll256_16 (v : Z) : Z :=
  _mm512_permutexvar_epi16
    (m512_const_64 0x001e001d001c001b 0x001a001900180017
                   0x0016001500140013 0x001200110010001f
                   0x000e000d000c000b 0x000a000900080007
                   0x0006000500040003 0x000200010000000f) v.



(** ** Rotation of elements inside 128 bit lanes *)


(** ** Rotation of bytes inside 64 or 32 bit elements *)

Definition mm512_swap32_16 (v : Z) : Z := _mm512_ror_epi32 v 16.
Definition mm512_shuflr32_16 : Z -> Z := mm512_swap32_16.
Definition mm512_shufll32_16 : Z -> Z := mm512_swap32_16.

(* ================================================================== *)
(** * Source maps of the shuffles

    Each shuffle with a fixed control is a [gather]; the maps below give the
    source element of every destination element. *)

Definition src_shuffle_epi8 (ctl : Z) (j : Z) : option Z :=
  let c := lane 8 j ctl in
  if Z.testbit c 7 then None else Some (Z.land c 15).

Definition src_shuffle512_epi8 (ctl : Z) (j : Z) : option Z :=
  let c := lane 8 j ctl in
  if Z.testbit c 7 then None else Some (Z.land c 15 + Z.land j 48).

Definition src_permutexvar (w mask idx : Z) (j : Z) : option Z :=
  Some (Z.land (lane w j idx) mask).


Definition src_shuffle_epi32 (c : Z) (j : Z) : option Z :=
  Some (lane 2 j (imm8 c)).

Definition src_shufflelo (c : Z) (j : Z) : option Z :=
  if j <? 4 then Some (lane 2 j (imm8 c)) else Some j.

Definition src_shufflehi (c : Z) (j : Z) : option Z :=
  if j <? 4 then Some j else Some (4 + lane 2 (j - 4) (imm8 c)).

(** Rotation of [n] elements by [k] positions toward element 0. *)
Definition src_rot (n k : Z) (j : Z) : option Z :=
  Some (if j + k <? n then j + k else j + k - n).

(** [src2] read through [src1]: the map of [gather src2 (gather src1 v)]. *)
Definition src_comp (src2 src1 : Z -> option Z) (j : Z) : option Z :=
  match src2 j with
  | Some s => src1 s
  | None => None
  end.

(** A map on elements of width [m*w] seen on elements of width [w]. *)
Definition src_refine (m : Z) (src : Z -> option Z) (j : Z) : option Z :=
  match src (j / m) with
  | Some s => Some (m * s + j mod m)
  | None => None
  end.

(** Byte swap inside every 16 bit element, composed from shifts. *)
Definition src_swap16 (j : Z) : option Z := Some (2 * (j / 2) + (1 - j mod 2)).

(** The control vectors of the 128 bit byte swaps. *)
Definition ctl128_bswap_64 : Z :=
  _mm_set_epi64x 0x08090a0b0c0d0e0f 0x0001020304050607.
Definition ctl128_bswap_32 : Z :=
  _mm_set_epi64x 0x0c0d0e0f08090a0b 0x0405060700010203.
Definition ctl128_bswap_16 : Z :=
  _mm_set_epi64x 0x0e0f0c0d0a0b0809 0x0607040502030001.

(** Right rotation by [k] bytes inside elements of [m] bytes. *)
Definition src_ror_bytes (m k : Z) (j : Z) : option Z :=
  Some (m * (j / m) + (j mod m + k) mod m).

(** A vector whose elements of width [w] carry the markers [f 0 .. f (n-1)]. *)
Definition marked (w : Z) (n : nat) (f : Z -> Z) : Z := build w n f.

(** Vector [i] carries the marker [16*i + j] in its 64 bit element [j]. *)
Definition marker_vec (i : Z) : Z := marked 64 8 (fun j => 16 * i + j).

(** A memory with every byte zero, for examples. *)
Definition zero_mem : mem := fun _ => 0.

(* ================================================================== *)
(** * Further definitions of the two headers *)

(** ** simd-128.h *)

Definition mm128_negate_64 (v : Z) : Z := _mm_sub_epi64 m128_zero v.
Definition mm128_negate_32 (v : Z) : Z := _mm_sub_epi32 m128_zero v.
Definition mm128_negate_16 (v : Z) : Z := _mm_sub_epi16 m128_zero v.


(** Defined under SSE4.1 only. *)
Definition mm128_shuflmov_32 (v1 i1 v2 i2 : Z) : Z :=
  mm128_xim_32 v1 v2 (Z.lor (Z.shiftl i1 4) (Z.shiftl i2 6)).

Definition mm128_shuffle2_64 (v1 v2 c : Z) : Z :=
  _mm_castpd_si128 (_mm_shuffle_pd (_mm_castsi128_pd v1) (_mm_castsi128_pd v2) c).

Definition mm128_shuffle2_32 (v1 v2 c : Z) : Z :=
  _mm_castps_si128 (_mm_shuffle_ps (_mm_castsi128_ps v1) (_mm_castsi128_ps v2) c).

(** [mm128_swap256_128( v1, v2 )] is three assignments to the objects that
    its two arguments name.  Objects are numbered; [a] and [b] are the
    numbers of the objects named, which may be the same object. *)
Definition vars : Type := nat -> Z.

Definition assign (e : vars) (x : nat) (val : Z) : vars :=
  fun y => if Nat.eqb y x then val else e y.

Definition mm128_swap256_128 (a b : nat) (e : vars) : vars :=
  let e := assign e a (_mm_xor_si128 (e a) (e b)) in
  let e := assign e b (_mm_xor_si128 (e a) (e b)) in
  assign e a (_mm_xor_si128 (e a) (e b)).

(** The block byte swaps: eight slots of [s] swapped into the eight slots
    of [d].  Under SSSE3 they are macros that shuffle with one control
    vector, otherwise functions that call the single vector swap. *)
Definition mm128_block_bswap_64 (t : tier) (m : mem) (d s : Z) : mem :=
  if has_SSSE3 t then
    let ctl := m128_const_64 t 0x08090a0b0c0d0e0f 0x0001020304050607 in
    fold_left (fun m i =>
      store 16 m (d + 16 * i) (_mm_shuffle_epi8 (load 16 m (s + 16 * i)) ctl))
      (zseq 8) m
  else
    fold_left (fun m i =>
      store 16 m (d + 16 * i) (mm128_bswap_64 t (load 16 m (s + 16 * i))))
      (zseq 8) m.

Definition mm128_block_bswap_32 (t : tier) (m : mem) (d s : Z) : mem :=
  if has_SSSE3 t then
    let ctl := m128_const_64 t 0x0c0d0e0f08090a0b 0x0405060700010203 in
    fold_left (fun m i =>
      store 16 m (d + 16 * i) (_mm_shuffle_epi8 (load 16 m (s + 16 * i)) ctl))
      (zseq 8) m
  else
    fold_left (fun m i =>
      store 16 m (d + 16 * i) (mm128_bswap_32 t (load 16 m (s + 16 * i))))
      (zseq 8) m.

(** ** The 512 bit header *)

Definition mm512_perm_128 (v c : Z) : Z := _mm512_shuffle_i64x2 v v c.

(** The casts leave the upper bits undefined: [undef] is what they hold. *)
Definition m512_const1_128 (undef v : Z) : Z :=
  mm512_perm_128 (_mm512_castsi128_si512 undef v) 0.
Definition m512_const1_i128 (undef i : Z) : Z :=
  mm512_perm_128 (_mm512_castsi128_si512 undef (mm128_mov64_128 i)) 0.

Definition m512_const1_64 (i : Z) : Z :=
  _mm512_broadcastq_epi64 (mm128_mov64_128 i).
Definition m512_const1_32 (i : Z) : Z :=
  _mm512_broadcastd_epi32 (mm128_mov32_128 i).
Definition m512_const1_16 (i : Z) : Z :=
  _mm512_broadcastw_epi16 (mm128_mov32_128 i).
Definition m512_const1_8 (i : Z) : Z :=
  _mm512_broadcastb_epi8 (mm128_mov32_128 i).

Definition m512_const2_64 (t : tier) (undef i1 i0 : Z) : Z :=
  m512_const1_128 undef (m128_const_64 t i1 i0).

Definition m512_one_128 (undef : Z) : Z := m512_const1_i128 undef 1.
Definition m512_one_64 : Z := m512_const1_64 1.
Definition m512_one_32 : Z := m512_const1_32 1.
Definition m512_one_16 : Z := m512_const1_16 1.
Definition m512_one_8 : Z := m512_const1_8 1.
Definition m512_neg1 : Z := _mm512_movm_epi64 0xff.

Definition mm512_negate_64 (x : Z) : Z := _mm512_sub_epi64 m512_zero x.
Definition mm512_negate_32 (x : Z) : Z := _mm512_sub_epi32 m512_zero x.
Definition mm512_negate_16 (x : Z) : Z := _mm512_sub_epi16 m512_zero x.


Definition mm512_block_bswap_64 (m : mem) (d s : Z) : mem :=
  let ctl := m512_const_64 0x38393a3b3c3d3e3f 0x3031323334353637
                           0x28292a2b2c2d2e2f 0x2021222324252627
                           0x18191a1b1c1d1e1f 0x1011121314151617
                           0x08090a0b0c0d0e0f 0x0001020304050607 in
  fold_left (fun m i =>
    store 64 m (d + 64 * i) (_mm512_shuffle_epi8 (load 64 m (s + 64 * i)) ctl))
    (zseq 8) m.

Definition mm512_block_bswap_32 (m : mem) (d s : Z) : mem :=
  let ctl := m512_const_64 0x3c3d3e3f38393a3b 0x3435363730313233
                           0x2c2d2e2f28292a2b 0x2425262720212223
                           0x1c1d1e1f18191a1b 0x1415161710111213
                           0x0c0d0e0f08090a0b 0x0405060700010203 in
  fold_left (fun m i =>
    store 64 m (d + 64 * i) (_mm512_shuffle_epi8 (load 64 m (s + 64 * i)) ctl))
    (zseq 8) m.

Definition mm512_shuflr128_8 (v c : Z) : Z := _mm512_alignr_epi8 v v c.

(** [n] applications of [f]. *)
Fixpoint iterate {A : Type} (n : nat) (f : A -> A) (x : A) : A :=
  match n with
  | O => x
  | S k => f (iterate k f x)
  end.

(* ================================================================== *)
(** * Facts about elements *)

Section LaneFacts.

Variable w : Z.
Hypothesis w_pos : 0 < w.

Lemma nth_map_zseq (f : Z -> Z) (n j : nat) :
  (j < n)%nat -> nth j (map f (zseq n)) 0 = f (Z.of_nat j).
Proof.
  intros H. unfold zseq. rewrite map_map.
  rewrite (nth_indep _ 0 (f (Z.of_nat 0%nat))) by (rewrite length_map, length_seq; exact H).
  rewrite (map_nth (fun x => f (Z.of_nat x)) (seq 0 n) 0%nat j).
  rewrite seq_nth by exact H. reflexivity.
Qed.

Lemma nth_map_zseq_out (f : Z -> Z) (n j : nat) :
  (n <= j)%nat -> nth j (map f (zseq n)) 0 = 0.
Proof.
  intros H. apply nth_overflow. unfold zseq.
  rewrite !length_map, length_seq. exact H.
Qed.

Lemma testbit_lane (i v n : Z) :
  0 <= n -> Z.testbit (lane w i v) n = (n <? w) && Z.testbit v (n + w * i).
Proof.
  intros Hn. unfold lane.
  rewrite Z.land_spec, Z.shiftr_spec by exact Hn.
  rewrite Z.testbit_ones_nonneg by lia.
  apply andb_comm.
Qed.

Lemma testbit_pack (ls : list Z) : forall n,
  0 <= n ->
  Z.testbit (pack w ls) n = Z.testbit (nth (Z.to_nat (n / w)) ls 0) (n mod w).
Proof.
  induction ls as [|x r IH]; intros n Hn.
  - simpl. destruct (Z.to_nat (n / w)); rewrite !Z.testbit_0_l; reflexivity.
  - cbn [pack]. rewrite Z.lor_spec, Z.land_spec, Z.shiftl_spec by exact Hn.
    rewrite Z.testbit_ones_nonneg by lia.
    destruct (Z.ltb_spec n w) as [Hlt|Hge].
    + rewrite Z.div_small, Z.mod_small by lia. cbn [Z.to_nat nth].
      rewrite (Z.testbit_neg_r _ (n - w)) by lia.
      rewrite andb_true_r, orb_false_r. reflexivity.
    + rewrite andb_false_r, orb_false_l.
      rewrite IH by lia.
      replace n with ((n - w) + 1 * w) at 3 4 by ring.
      rewrite Z.div_add, Z_mod_plus_full by lia.
      assert (0 <= (n - w) / w) by (apply Z.div_pos; lia).
      replace (Z.to_nat ((n - w) / w + 1)) with (S (Z.to_nat ((n - w) / w))) by lia.
      reflexivity.
Qed.

Lemma lane_pack (ls : list Z) (j : Z) :
  0 <= j ->
  lane w j (pack w ls) = Z.land (nth (Z.to_nat j) ls 0) (Z.ones w).
Proof.
  intros Hj. apply Z.bits_inj'. intros n Hn.
  rewrite testbit_lane by exact Hn.
  rewrite Z.land_spec, Z.testbit_ones_nonneg by lia.
  destruct (Z.ltb_spec n w) as [Hlt|Hge].
  - rewrite testbit_pack by nia.
    replace (n + w * j) with (n + j * w) by ring.
    rewrite Z.div_add, Z_mod_plus_full by lia.
    rewrite Z.div_small, Z.mod_small by lia.
    rewrite andb_true_r. reflexivity.
  - rewrite andb_false_r. reflexivity.
Qed.

Lemma lane_build (n : nat) (f : Z -> Z) (j : Z) :
  0 <= j < Z.of_nat n ->
  lane w j (build w n f) = Z.land (f j) (Z.ones w).
Proof.
  intros Hj. unfold build. rewrite lane_pack by lia.
  rewrite nth_map_zseq by lia. rewrite Z2Nat.id by lia. reflexivity.
Qed.

Lemma lane_build_out (n : nat) (f : Z -> Z) (j : Z) :
  Z.of_nat n <= j -> lane w j (build w n f) = 0.
Proof.
  intros Hj. unfold build. rewrite lane_pack by lia.
  rewrite nth_map_zseq_out by lia. apply Z.land_0_l.
Qed.

Lemma land_lane_ones (i v : Z) : Z.land (lane w i v) (Z.ones w) = lane w i v.
Proof.
  unfold lane. rewrite <- Z.land_assoc, Z.land_diag. reflexivity.
Qed.

Lemma lane_range (i v : Z) : 0 <= lane w i v < 2 ^ w.
Proof.
  unfold lane. rewrite Z.land_ones by lia. apply Z.mod_pos_bound.
  apply Z.pow_pos_nonneg; lia.
Qed.

Lemma pack_ext (l1 l2 : list Z) :
  Forall2 (fun x y => Z.land x (Z.ones w) = Z.land y (Z.ones w)) l1 l2 ->
  pack w l1 = pack w l2.
Proof.
  induction 1 as [|x y r1 r2 Hxy _ IH]; cbn [pack]; [reflexivity|].
  rewrite Hxy, IH. reflexivity.
Qed.

Lemma build_ext (n : nat) (f g : Z -> Z) :
  (forall j, 0 <= j < Z.of_nat n ->
     Z.land (f j) (Z.ones w) = Z.land (g j) (Z.ones w)) ->
  build w n f = build w n g.
Proof.
  intros H. unfold build. apply pack_ext.
  unfold zseq. rewrite !map_map.
  assert (Hs : forall k, In k (seq 0 n) -> (k < n)%nat)
    by (intros k Hk; apply in_seq in Hk; lia).
  induction (seq 0 n) as [|k r IH]; cbn [map]; constructor.
  - apply H. specialize (Hs k (or_introl eq_refl)). lia.
  - apply IH. intros k' Hk'. apply Hs. right. exact Hk'.
Qed.

Lemma build_eq (n : nat) (f g : Z -> Z) :
  (forall j, 0 <= j < Z.of_nat n -> f j = g j) ->
  build w n f = build w n g.
Proof.
  intros H. apply build_ext. intros j Hj. rewrite H by exact Hj. reflexivity.
Qed.

Lemma testbit_build (n : nat) (f : Z -> Z) (m : Z) :
  0 <= m ->
  Z.testbit (build w n f) m =
  (m / w <? Z.of_nat n) && Z.testbit (f (m / w)) (m mod w).
Proof.
  intros Hm. unfold build. rewrite testbit_pack by exact Hm.
  assert (0 <= m / w) by (apply Z.div_pos; lia).
  destruct (Z.ltb_spec (m / w) (Z.of_nat n)).
  - rewrite nth_map_zseq by lia. rewrite Z2Nat.id by lia. reflexivity.
  - rewrite nth_map_zseq_out by lia. apply Z.testbit_0_l.
Qed.

Lemma testbit_high (bits v m : Z) :
  0 <= bits -> vec bits v -> bits <= m -> Z.testbit v m = false.
Proof.
  intros Hb [H0 H1] Hm.
  rewrite <- (Z.mod_small v (2 ^ bits)) by lia.
  apply Z.mod_pow2_bits_high. lia.
Qed.

Lemma vec_of_bits (bits v : Z) :
  0 <= bits -> 0 <= v ->
  (forall m, bits <= m -> Z.testbit v m = false) -> vec bits v.
Proof.
  intros Hb Hv H. unfold vec.
  assert (E : v = v mod 2 ^ bits).
  { apply Z.bits_inj'. intros m Hm.
    destruct (Z.ltb_spec m bits).
    - rewrite Z.mod_pow2_bits_low by lia. reflexivity.
    - rewrite Z.mod_pow2_bits_high by lia. apply H. lia. }
  rewrite E. apply Z.mod_pos_bound. apply Z.pow_pos_nonneg; lia.
Qed.

Lemma pack_nonneg (ls : list Z) : 0 <= pack w ls.
Proof.
  induction ls as [|x r IH]; cbn [pack]; [lia|].
  apply Z.lor_nonneg. split.
  - rewrite Z.land_ones by lia. apply Z.mod_pos_bound.
    apply Z.pow_pos_nonneg; lia.
  - apply Z.shiftl_nonneg. exact IH.
Qed.

Lemma vec_build (n : nat) (f : Z -> Z) : vec (w * Z.of_nat n) (build w n f).
Proof.
  apply vec_of_bits; [nia | apply pack_nonneg |].
  intros m Hm. rewrite testbit_build by nia.
  assert (Z.of_nat n <= m / w) by (apply Z.div_le_lower_bound; lia).
  destruct (Z.ltb_spec (m / w) (Z.of_nat n)); [lia | reflexivity].
Qed.

Lemma build_lanes (n : nat) (v : Z) :
  vec (w * Z.of_nat n) v -> build w n (fun j => lane w j v) = v.
Proof.
  intros Hv. apply Z.bits_inj'. intros m Hm.
  rewrite testbit_build by exact Hm.
  assert (Hr := Z.mod_pos_bound m w w_pos).
  rewrite testbit_lane by lia.
  replace (m mod w + w * (m / w)) with m by (rewrite (Z.div_mod m w) at 1; lia).
  destruct (Z.ltb_spec (m mod w) w); [|lia].
  destruct (Z.ltb_spec (m / w) (Z.of_nat n)) as [Hlt|Hge]; cbn [andb].
  - reflexivity.
  - symmetry. apply (testbit_high (w * Z.of_nat n)); [nia | exact Hv |].
    rewrite (Z.div_mod m w) by lia. nia.
Qed.

Lemma vec_eq_lanes (n : nat) (u v : Z) :
  vec (w * Z.of_nat n) u -> vec (w * Z.of_nat n) v ->
  (forall j, 0 <= j < Z.of_nat n -> lane w j u = lane w j v) -> u = v.
Proof.
  intros Hu Hv H.
  rewrite <- (build_lanes n u Hu), <- (build_lanes n v Hv).
  apply build_eq. exact H.
Qed.

End LaneFacts.

(* ================================================================== *)
(** * Facts about gathers *)

Lemma all_below_spec (n : nat) (P : Z -> bool) :
  all_below n P = true -> forall j, 0 <= j < Z.of_nat n -> P j = true.
Proof.
  unfold all_below, zseq. intros H j Hj.
  rewrite forallb_forall in H. apply H.
  apply in_map_iff. exists (Z.to_nat j). split; [lia|].
  apply in_seq. lia.
Qed.

Lemma opt_eqb_eq (a b : option Z) : opt_eqb a b = true -> a = b.
Proof.
  destruct a, b; cbn; intros H; try discriminate; [|reflexivity].
  apply Z.eqb_eq in H. subst. reflexivity.
Qed.

Section GatherFacts.

Variable w : Z.
Hypothesis w_pos : 0 < w.

Lemma land_pick_ones (v : Z) (s : option Z) :
  Z.land (pick w v s) (Z.ones w) = pick w v s.
Proof.
  destruct s; cbn [pick]; [apply land_lane_ones | apply Z.land_0_l].
Qed.

Lemma lane_gather (n : nat) (src : Z -> option Z) (v j : Z) :
  0 <= j < Z.of_nat n -> lane w j (gather w n src v) = pick w v (src j).
Proof.
  intros Hj. unfold gather. rewrite lane_build by assumption.
  apply land_pick_ones.
Qed.

Lemma gather_ext (n : nat) (s1 s2 : Z -> option Z) (v : Z) :
  (forall j, 0 <= j < Z.of_nat n -> s1 j = s2 j) ->
  gather w n s1 v = gather w n s2 v.
Proof.
  intros H. unfold gather. apply build_eq.
  intros j Hj. rewrite H by exact Hj. reflexivity.
Qed.

Lemma gather_same_src (n : nat) (s1 s2 : Z -> option Z) (v : Z) :
  same_src n s1 s2 = true -> gather w n s1 v = gather w n s2 v.
Proof.
  intros H. apply gather_ext. intros j Hj.
  apply opt_eqb_eq. exact (all_below_spec _ _ H j Hj).
Qed.

Lemma gather_gather (n : nat) (s2 s1 : Z -> option Z) (v : Z) :
  src_in_range n s2 = true ->
  gather w n s2 (gather w n s1 v) = gather w n (src_comp s2 s1) v.
Proof.
  intros H. unfold gather at 1 3. apply build_eq.
  intros j Hj. unfold src_comp.
  pose proof (all_below_spec _ _ H j Hj) as Hr. cbv beta in Hr.
  destruct (s2 j) as [s|]; cbn [pick]; [|reflexivity].
  apply lane_gather. lia.
Qed.

Lemma vec_gather (n : nat) (src : Z -> option Z) (v : Z) :
  vec (w * Z.of_nat n) (gather w n src v).
Proof. apply (vec_build w w_pos). Qed.

Lemma gather_id (n : nat) (src : Z -> option Z) (v : Z) :
  vec (w * Z.of_nat n) v ->
  (forall j, 0 <= j < Z.of_nat n -> src j = Some j) ->
  gather w n src v = v.
Proof.
  intros Hv H. rewrite <- (build_lanes w w_pos n v Hv) at 2.
  unfold gather. apply build_eq.
  intros j Hj. rewrite H by exact Hj. reflexivity.
Qed.

Lemma gather_undoes (n : nat) (s2 s1 : Z -> option Z) (v : Z) :
  undoes n s2 s1 = true ->
  vec (w * Z.of_nat n) v ->
  gather w n s2 (gather w n s1 v) = v.
Proof.
  intros H Hv.
  apply (vec_eq_lanes w w_pos n); [apply vec_gather | exact Hv |].
  intros j Hj. rewrite lane_gather by exact Hj.
  pose proof (all_below_spec _ _ H j Hj) as Hr. cbv beta in Hr.
  destruct (s2 j) as [s|]; [|discriminate].
  apply andb_prop in Hr. destruct Hr as [Hr Ht].
  cbn [pick]. rewrite lane_gather by lia.
  destruct (s1 s) as [t|]; [|discriminate].
  apply Z.eqb_eq in Ht. subst t. reflexivity.
Qed.

(** Elements of width [w] inside elements of width [m*w]. *)
Lemma lane_lane (m i j v : Z) :
  0 <= j < m -> lane w j (lane (m * w) i v) = lane w (m * i + j) v.
Proof.
  intros Hj. apply Z.bits_inj'. intros b Hb.
  rewrite !testbit_lane by nia.
  destruct (Z.ltb_spec b w) as [Hlt|Hge]; cbn [andb]; [|reflexivity].
  destruct (Z.ltb_spec (b + w * j) (m * w)) as [_|Hc]; [|nia].
  cbn [andb]. f_equal. ring.
Qed.

Lemma sublane_build (m : Z) (n : nat) (f : Z -> Z) (j : Z) :
  0 < m -> 0 <= j < m * Z.of_nat n ->
  lane w j (build (m * w) n f) = lane w (j mod m) (f (j / m)).
Proof.
  intros Hm Hj.
  assert (Hr := Z.mod_pos_bound j m Hm).
  assert (Hq : 0 <= j / m < Z.of_nat n).
  { split; [apply Z.div_pos; lia | apply Z.div_lt_upper_bound; lia]. }
  rewrite (Z.div_mod j m) at 1 by lia.
  rewrite <- lane_lane by lia.
  rewrite lane_build by nia.
  apply Z.bits_inj'. intros b Hb.
  rewrite !testbit_lane by nia.
  rewrite Z.land_spec, Z.testbit_ones_nonneg by nia.
  destruct (Z.ltb_spec b w) as [Hlt|Hge]; cbn [andb]; [|reflexivity].
  destruct (Z.ltb_spec (b + w * (j mod m)) (m * w)) as [_|Hc]; [|nia].
  apply andb_true_r.
Qed.

Lemma gather_refine (m : Z) (n : nat) (src : Z -> option Z) (v : Z) :
  0 < m ->
  gather (m * w) n src v =
  gather w (Z.to_nat m * n) (src_refine m src) v.
Proof.
  intros Hm.
  assert (Hmw : 0 < m * w) by nia.
  apply (vec_eq_lanes w w_pos (Z.to_nat m * n)).
  - replace (w * Z.of_nat (Z.to_nat m * n)) with (m * w * Z.of_nat n) by nia.
    apply (vec_build (m * w) Hmw).
  - apply vec_gather.
  - intros j Hj. rewrite lane_gather by exact Hj.
    unfold gather. rewrite sublane_build by nia.
    unfold src_refine.
    destruct (src (j / m)) as [s|]; cbn [pick].
    + apply lane_lane. apply Z.mod_pos_bound. exact Hm.
    + unfold lane. rewrite Z.shiftr_0_l. apply Z.land_0_l.
Qed.

(** Element-wise OR. *)
Lemma lor_build (n : nat) (f g : Z -> Z) :
  Z.lor (build w n f) (build w n g) = build w n (fun j => Z.lor (f j) (g j)).
Proof.
  apply Z.bits_inj'. intros b Hb.
  rewrite Z.lor_spec, !testbit_build by assumption.
  rewrite Z.lor_spec.
  destruct (b / w <? Z.of_nat n); reflexivity.
Qed.

End GatherFacts.

(* ================================================================== *)
(** * Facts about rotations *)

Lemma imm8_small (c : Z) : 0 <= c < 256 -> imm8 c = c.
Proof.
  intros H. unfold imm8. change 255 with (Z.ones 8).
  rewrite Z.land_ones by lia. apply Z.mod_small. exact H.
Qed.

Section Rotation.

Variable w : Z.
Hypothesis w_pos : 0 < w.

Lemma land_ones_small (x : Z) : 0 <= x < 2 ^ w -> Z.land x (Z.ones w) = x.
Proof.
  intros H. rewrite Z.land_ones by lia. apply Z.mod_small. exact H.
Qed.

Lemma mod_wrap (a : Z) : 0 <= a < 2 * w ->
  a mod w = if a <? w then a else a - w.
Proof.
  intros H. destruct (Z.ltb_spec a w).
  - apply Z.mod_small. lia.
  - symmetry. apply (Z.mod_unique a w 1); lia.
Qed.

(** Bit [b] of a rotation is a bit of the source at a rotated index. *)
Lemma testbit_right_rotate (x c b : Z) :
  0 <= x < 2 ^ w -> 0 <= b ->
  Z.testbit (right_rotate w x c) b =
  (b <? w) && Z.testbit x ((b + c mod w) mod w).
Proof.
  intros Hx Hb. unfold right_rotate.
  assert (Hc := Z.mod_pos_bound c w w_pos).
  set (k := c mod w) in *. clearbody k.
  rewrite Z.land_spec, Z.lor_spec, Z.shiftr_spec, Z.shiftl_spec by lia.
  rewrite Z.testbit_ones_nonneg by lia. rewrite andb_comm.
  destruct (Z.ltb_spec b w) as [Hlt|Hge]; cbn [andb]; [|reflexivity].
  rewrite mod_wrap by lia.
  destruct (Z.ltb_spec (b + k) w).
  - rewrite (Z.testbit_neg_r x (b - (w - k))) by lia. apply orb_false_r.
  - rewrite (testbit_high w x (b + k)) by (unfold vec; lia).
    cbn [orb]. f_equal. lia.
Qed.

Lemma testbit_left_rotate (x c b : Z) :
  0 <= x < 2 ^ w -> 0 <= b ->
  Z.testbit (left_rotate w x c) b =
  (b <? w) && Z.testbit x ((b + (w - c mod w)) mod w).
Proof.
  intros Hx Hb. unfold left_rotate.
  assert (Hc := Z.mod_pos_bound c w w_pos).
  set (k := c mod w) in *. clearbody k.
  rewrite Z.land_spec, Z.lor_spec, Z.shiftr_spec, Z.shiftl_spec by lia.
  rewrite Z.testbit_ones_nonneg by lia. rewrite andb_comm.
  destruct (Z.ltb_spec b w) as [Hlt|Hge]; cbn [andb]; [|reflexivity].
  rewrite mod_wrap by lia.
  destruct (Z.ltb_spec (b + (w - k)) w).
  - rewrite (Z.testbit_neg_r x (b - k)) by lia. reflexivity.
  - rewrite (testbit_high w x (b + (w - k))) by (unfold vec; lia).
    rewrite orb_false_r. f_equal. lia.
Qed.

Lemma right_rotate_range (x c : Z) : 0 <= right_rotate w x c < 2 ^ w.
Proof.
  unfold right_rotate. rewrite Z.land_ones by lia.
  apply Z.mod_pos_bound. apply Z.pow_pos_nonneg; lia.
Qed.

Lemma left_rotate_range (x c : Z) : 0 <= left_rotate w x c < 2 ^ w.
Proof.
  unfold left_rotate. rewrite Z.land_ones by lia.
  apply Z.mod_pos_bound. apply Z.pow_pos_nonneg; lia.
Qed.

(** A rotation to the right undone by the rotation to the left. *)
Lemma left_right_rotate (x c : Z) :
  0 <= x < 2 ^ w -> left_rotate w (right_rotate w x c) c = x.
Proof.
  intros Hx. apply Z.bits_inj'. intros b Hb.
  assert (Hc := Z.mod_pos_bound c w w_pos).
  rewrite testbit_left_rotate by (auto using right_rotate_range).
  destruct (Z.ltb_spec b w) as [Hlt|Hge]; cbn [andb].
  - assert (Hm := Z.mod_pos_bound (b + (w - c mod w)) w w_pos).
    rewrite testbit_right_rotate by (auto; lia).
    destruct (Z.ltb_spec ((b + (w - c mod w)) mod w) w); [|lia].
    cbn [andb]. f_equal.
    rewrite Zplus_mod_idemp_l.
    replace (b + (w - c mod w) + c mod w) with (b + 1 * w) by ring.
    rewrite Z_mod_plus_full. apply Z.mod_small. lia.
  - symmetry. apply (testbit_high w); unfold vec; lia.
Qed.

(** The shift-or emulation is the rotation, for amounts up to the width. *)
Lemma emulated_right_rotate (x c : Z) :
  0 <= x < 2 ^ w -> 0 <= c < w -> w <= 255 ->
  Z.land (Z.lor (if imm8 c >? w - 1 then 0 else Z.shiftr x (imm8 c))
                (if imm8 (w - c) >? w - 1 then 0
                 else Z.shiftl x (imm8 (w - c))))
         (Z.ones w)
  = right_rotate w x (imm8 c).
Proof.
  intros Hx Hc Hw. rewrite !imm8_small by lia.
  unfold right_rotate. rewrite (Z.mod_small c w) by lia.
  destruct (Z.gtb_spec c (w - 1)); [lia|].
  destruct (Z.gtb_spec (w - c) (w - 1)); [|reflexivity].
  assert (c = 0) by lia. subst c.
  apply Z.bits_inj'. intros b Hb.
  rewrite !Z.land_spec, !Z.lor_spec, Z.shiftr_spec, Z.shiftl_spec by lia.
  rewrite Z.testbit_0_l, Z.testbit_ones_nonneg by lia.
  destruct (Z.ltb_spec b w); [|rewrite !andb_false_r; reflexivity].
  rewrite (Z.testbit_neg_r x (b - (w - 0))) by lia. reflexivity.
Qed.

Lemma emulated_left_rotate (x c : Z) :
  0 <= x < 2 ^ w -> 0 <= c < w -> w <= 255 ->
  Z.land (Z.lor (if imm8 c >? w - 1 then 0 else Z.shiftl x (imm8 c))
                (if imm8 (w - c) >? w - 1 then 0
                 else Z.shiftr x (imm8 (w - c))))
         (Z.ones w)
  = left_rotate w x (imm8 c).
Proof.
  intros Hx Hc Hw. rewrite !imm8_small by lia.
  unfold left_rotate. rewrite (Z.mod_small c w) by lia.
  destruct (Z.gtb_spec c (w - 1)); [lia|].
  destruct (Z.gtb_spec (w - c) (w - 1)); [|reflexivity].
  assert (c = 0) by lia. subst c.
  apply Z.bits_inj'. intros b Hb.
  rewrite !Z.land_spec, !Z.lor_spec, Z.shiftr_spec, Z.shiftl_spec by lia.
  rewrite Z.testbit_0_l, Z.testbit_ones_nonneg by lia.
  destruct (Z.ltb_spec b w); [|rewrite !andb_false_r; reflexivity].
  rewrite (testbit_high w x (b + (w - 0))) by (unfold vec; lia). reflexivity.
Qed.

(** Element-wise versions. *)
Lemma proli_prori (n : nat) (v c : Z) :
  vec (w * Z.of_nat n) v -> proli w n (prori w n v c) c = v.
Proof.
  intros Hv. unfold proli, prori.
  transitivity (build w n (fun j => lane w j v));
    [|apply build_lanes; assumption].
  apply build_eq. intros j Hj.
  rewrite lane_build by assumption.
  rewrite land_ones_small by apply right_rotate_range.
  apply left_right_rotate. apply lane_range. assumption.
Qed.

Lemma emulated_prori (n : nat) (v c : Z) :
  0 <= c < w -> w <= 255 ->
  Z.lor (psrli w n v c) (pslli w n v (w - c)) = prori w n v c.
Proof.
  intros Hc Hw. unfold psrli, pslli, prori.
  rewrite lor_build by assumption.
  apply build_ext. intros j Hj.
  rewrite emulated_right_rotate by (auto using lane_range).
  symmetry. apply land_ones_small. apply right_rotate_range.
Qed.

Lemma emulated_proli (n : nat) (v c : Z) :
  0 <= c < w -> w <= 255 ->
  Z.lor (pslli w n v c) (psrli w n v (w - c)) = proli w n v c.
Proof.
  intros Hc Hw. unfold psrli, pslli, proli.
  rewrite lor_build by assumption.
  apply build_ext. intros j Hj.
  rewrite emulated_left_rotate by (auto using lane_range).
  symmetry. apply land_ones_small. apply left_rotate_range.
Qed.

End Rotation.

(* ================================================================== *)
(** * Facts about the intrinsics *)

(** ** Shuffles as gathers *)

Lemma shuffle_epi8_gather (a b : Z) :
  _mm_shuffle_epi8 a b = gather 8 16 (src_shuffle_epi8 b) a.
Proof.
  unfold _mm_shuffle_epi8, gather. apply build_eq. intros j _.
  unfold src_shuffle_epi8. destruct (Z.testbit (lane 8 j b) 7); reflexivity.
Qed.

Lemma shuffle512_epi8_gather (a b : Z) :
  _mm512_shuffle_epi8 a b = gather 8 64 (src_shuffle512_epi8 b) a.
Proof.
  unfold _mm512_shuffle_epi8, gather. apply build_eq. intros j _.
  unfold src_shuffle512_epi8. destruct (Z.testbit (lane 8 j b) 7); reflexivity.
Qed.

Lemma permutexvar_epi16_gather (idx a : Z) :
  _mm512_permutexvar_epi16 idx a = gather 16 32 (src_permutexvar 16 31 idx) a.
Proof. reflexivity. Qed.




Lemma shuffle_epi32_gather (a c : Z) :
  _mm_shuffle_epi32 a c = gather 32 4 (src_shuffle_epi32 c) a.
Proof. reflexivity. Qed.

Lemma shufflelo_epi16_gather (a c : Z) :
  _mm_shufflelo_epi16 a c = gather 16 8 (src_shufflelo c) a.
Proof.
  unfold _mm_shufflelo_epi16, gather. apply build_eq. intros j _.
  unfold src_shufflelo. destruct (j <? 4); reflexivity.
Qed.

Lemma shufflehi_epi16_gather (a c : Z) :
  _mm_shufflehi_epi16 a c = gather 16 8 (src_shufflehi c) a.
Proof.
  unfold _mm_shufflehi_epi16, gather. apply build_eq. intros j _.
  unfold src_shufflehi. destruct (j <? 4); reflexivity.
Qed.

(** Two registers concatenated and shifted right by whole elements. *)
Lemma lane_concat_shift (w : Z) (n : nat) (a b k j : Z) :
  0 < w -> 0 <= k <= Z.of_nat n -> 0 <= j < Z.of_nat n ->
  vec (w * Z.of_nat n) b ->
  lane w j (Z.land (Z.shiftr (Z.lor (Z.shiftl a (w * Z.of_nat n)) b) (w * k))
                   (Z.ones (w * Z.of_nat n)))
  = if j + k <? Z.of_nat n then lane w (j + k) b
    else lane w (j + k - Z.of_nat n) a.
Proof.
  intros Hw Hk Hj Hb. set (N := Z.of_nat n) in *.
  apply Z.bits_inj'. intros m Hm.
  rewrite testbit_lane by lia.
  rewrite Z.land_spec, Z.shiftr_spec, Z.lor_spec, Z.shiftl_spec by nia.
  rewrite Z.testbit_ones_nonneg by nia.
  replace (m + w * j + w * k) with (m + w * (j + k)) by ring.
  destruct (Z.ltb_spec (j + k) N); rewrite testbit_lane by lia;
    destruct (Z.ltb_spec m w) as [Hlt|Hge]; cbn [andb]; try reflexivity;
    (destruct (Z.ltb_spec (m + w * j) (w * N)) as [_|Hc]; [|nia]);
    rewrite andb_true_r.
  - rewrite (Z.testbit_neg_r a) by nia. reflexivity.
  - rewrite (testbit_high (w * N) b) by (auto; nia).
    rewrite orb_false_r. f_equal. ring.
Qed.

Lemma concat_shift_rot (w : Z) (n : nat) (v k : Z) :
  0 < w -> 0 <= k <= Z.of_nat n -> vec (w * Z.of_nat n) v ->
  Z.land (Z.shiftr (Z.lor (Z.shiftl v (w * Z.of_nat n)) v) (w * k))
         (Z.ones (w * Z.of_nat n))
  = gather w n (src_rot (Z.of_nat n) k) v.
Proof.
  intros Hw Hk Hv.
  apply (vec_eq_lanes w Hw n).
  - unfold vec. rewrite Z.land_ones by nia. apply Z.mod_pos_bound.
    apply Z.pow_pos_nonneg; nia.
  - apply vec_gather. exact Hw.
  - intros j Hj. rewrite lane_concat_shift by assumption.
    rewrite lane_gather by assumption. unfold src_rot. cbn [pick].
    destruct (j + k <? Z.of_nat n); reflexivity.
Qed.

Lemma alignr_epi64_rot (v c : Z) :
  vec 512 v ->
  _mm512_alignr_epi64 v v c = gather 64 8 (src_rot 8 (Z.land c 7)) v.
Proof.
  intros Hv. unfold _mm512_alignr_epi64.
  assert (Hc : 0 <= Z.land c 7 < 8).
  { change 7 with (Z.ones 3). rewrite Z.land_ones by lia.
    apply Z.mod_pos_bound. lia. }
  apply (concat_shift_rot 64 8 v (Z.land c 7)); [lia | lia | exact Hv].
Qed.

Lemma alignr_epi32_rot (v c : Z) :
  vec 512 v ->
  _mm512_alignr_epi32 v v c = gather 32 16 (src_rot 16 (Z.land c 15)) v.
Proof.
  intros Hv. unfold _mm512_alignr_epi32.
  assert (Hc : 0 <= Z.land c 15 < 16).
  { change 15 with (Z.ones 4). rewrite Z.land_ones by lia.
    apply Z.mod_pos_bound. lia. }
  apply (concat_shift_rot 32 16 v (Z.land c 15)); [lia | lia | exact Hv].
Qed.

(** ** Blends *)

Lemma lane_pblend (w : Z) (n : nat) (k a b j : Z) :
  0 < w -> 0 <= j < Z.of_nat n ->
  lane w j (pblend w n k a b) =
  if Z.testbit k j then lane w j b else lane w j a.
Proof.
  intros Hw Hj. unfold pblend. rewrite lane_build by assumption.
  destruct (Z.testbit k j); apply land_lane_ones.
Qed.

(** ** Ternary logic *)

Lemma ternary_index (x y z : bool) :
  Z.lor (Z.lor (Z.shiftl (Z.b2z x) 2) (Z.shiftl (Z.b2z y) 1)) (Z.b2z z)
  = 4 * Z.b2z x + 2 * Z.b2z y + Z.b2z z.
Proof. destruct x, y, z; reflexivity. Qed.

Lemma testbit_bit (v i : Z) : Z.testbit (bit v i) 0 = Z.testbit v i.
Proof. unfold bit. destruct (Z.testbit v i); reflexivity. Qed.

Lemma testbit_pternlog (w : Z) (n : nat) (a b c imm m : Z) :
  0 < w -> 0 <= m < w * Z.of_nat n ->
  Z.testbit (pternlog w n a b c imm) m =
  Z.testbit (imm8 imm) (4 * bit a m + 2 * bit b m + bit c m).
Proof.
  intros Hw Hm. unfold pternlog.
  assert (Hr := Z.mod_pos_bound m w Hw).
  assert (Hq : m / w < Z.of_nat n) by (apply Z.div_lt_upper_bound; lia).
  rewrite testbit_build by lia.
  destruct (Z.ltb_spec (m / w) (Z.of_nat n)); [|lia]. cbn [andb].
  rewrite testbit_build by lia.
  rewrite Z.div_1_r, Z.mod_1_r, Z2Nat.id by lia.
  destruct (Z.ltb_spec (m mod w) w); [|lia]. cbn [andb].
  rewrite testbit_bit.
  replace (w * (m / w) + m mod w) with m by (rewrite (Z.div_mod m w) at 1; lia).
  unfold bit at 1 2 3. rewrite ternary_index. reflexivity.
Qed.

(* ================================================================== *)
(** * Properties of the headers *)

(** ** Rotations of simd-128.h at every tier *)

Lemma mm128_ror_64_native (t : tier) (v c : Z) :
  0 <= c < 64 -> mm128_ror_64 t v c = prori 64 2 v c.
Proof.
  intros Hc. unfold mm128_ror_64. destruct (has_AVX512VL t); [reflexivity|].
  apply (emulated_prori 64); lia.
Qed.

Lemma mm128_rol_64_native (t : tier) (v c : Z) :
  0 <= c < 64 -> mm128_rol_64 t v c = proli 64 2 v c.
Proof.
  intros Hc. unfold mm128_rol_64. destruct (has_AVX512VL t); [reflexivity|].
  apply (emulated_proli 64); lia.
Qed.

Lemma mm128_ror_32_native (t : tier) (v c : Z) :
  0 <= c < 32 -> mm128_ror_32 t v c = prori 32 4 v c.
Proof.
  intros Hc. unfold mm128_ror_32. destruct (has_AVX512VL t); [reflexivity|].
  apply (emulated_prori 32); lia.
Qed.

Lemma mm128_rol_32_native (t : tier) (v c : Z) :
  0 <= c < 32 -> mm128_rol_32 t v c = proli 32 4 v c.
Proof.
  intros Hc. unfold mm128_rol_32. destruct (has_AVX512VL t); [reflexivity|].
  apply (emulated_proli 32); lia.
Qed.

Lemma mm128_ror_16_native (v c : Z) :
  0 <= c < 16 -> mm128_ror_16 v c = prori 16 8 v c.
Proof. intros Hc. apply (emulated_prori 16); lia. Qed.

Lemma mm128_rol_16_native (v c : Z) :
  0 <= c < 16 -> mm128_rol_16 v c = proli 16 8 v c.
Proof. intros Hc. apply (emulated_proli 16); lia. Qed.

(** C3.  For the element widths 16, 32 and 64 and every amount [k] below the
    width, rotating right by [k] and then left by [k] gives the vector back:
    at 128 bits under every tier (the native rotate of AVX512VL and the
    shift-or emulation), and at 512 bits. *)
Theorem rotate_right_then_left (t : tier) (v128 v512 k : Z) :
  vec 128 v128 -> vec 512 v512 ->
  (0 <= k < 64 ->
     mm128_rol_64 t (mm128_ror_64 t v128 k) k = v128 /\
     mm512_rol_64 (mm512_ror_64 v512 k) k = v512) /\
  (0 <= k < 32 ->
     mm128_rol_32 t (mm128_ror_32 t v128 k) k = v128 /\
     mm512_rol_32 (mm512_ror_32 v512 k) k = v512) /\
  (0 <= k < 16 ->
     mm128_rol_16 (mm128_ror_16 v128 k) k = v128).
Proof.
  intros H128 H512.
  split; [|split]; intros Hk; [split | split |].
  - rewrite mm128_ror_64_native, mm128_rol_64_native by exact Hk.
    apply (proli_prori 64); [lia | exact H128].
  - apply (proli_prori 64); [lia | exact H512].
  - rewrite mm128_ror_32_native, mm128_rol_32_native by exact Hk.
    apply (proli_prori 32); [lia | exact H128].
  - apply (proli_prori 32); [lia | exact H512].
  - rewrite mm128_ror_16_native, mm128_rol_16_native by exact Hk.
    apply (proli_prori 16); [lia | exact H128].
Qed.

Lemma vec_intro (bits v : Z) :
  (0 <=? v) && (v <? 2 ^ bits) = true -> vec bits v.
Proof. unfold vec. lia. Qed.

Lemma rotate_right_then_left_witness :
  vec 128 0x0123456789abcdef /\ vec 512 1 /\ 0 <= 13 < 64 /\
  mm128_rol_64 tier_sse2 (mm128_ror_64 tier_sse2 0x0123456789abcdef 13) 13
  = 0x0123456789abcdef.
Proof.
  split; [apply vec_intro; reflexivity|].
  split; [apply vec_intro; reflexivity|].
  split; [lia|].
  apply (rotate_right_then_left tier_sse2 0x0123456789abcdef 1 13);
    [apply vec_intro; reflexivity | apply vec_intro; reflexivity | lia].
Defined.

(** ** Ternary logic *)

Lemma testbit_ternary512 (a b c imm n : Z) :
  0 <= n < 512 ->
  Z.testbit (_mm512_ternarylogic_epi64 a b c imm) n =
  Z.testbit (imm8 imm) (tt_index a b c n).
Proof. intros Hn. apply (testbit_pternlog 64 8); lia. Qed.

Lemma testbit_ternary128 (a b c imm n : Z) :
  0 <= n < 128 ->
  Z.testbit (_mm_ternarylogic_epi64 a b c imm) n =
  Z.testbit (imm8 imm) (tt_index a b c n).
Proof. intros Hn. apply (testbit_pternlog 64 2); lia. Qed.

(** The result does not depend on the element width of the instruction. *)
Lemma ternary_lane_width (a b c imm : Z) :
  _mm512_ternarylogic_epi32 a b c imm = _mm512_ternarylogic_epi64 a b c imm.
Proof.
  apply Z.bits_inj'. intros n Hn.
  destruct (Z.ltb_spec n 512).
  - unfold _mm512_ternarylogic_epi32, _mm512_ternarylogic_epi64.
    rewrite !testbit_pternlog by lia. reflexivity.
  - rewrite (testbit_high 512 (_mm512_ternarylogic_epi32 a b c imm)),
            (testbit_high 512 (_mm512_ternarylogic_epi64 a b c imm));
      trivial; try lia.
    + apply (vec_build 64 ltac:(lia) 8).
    + apply (vec_build 32 ltac:(lia) 16).
Qed.

Lemma testbit_xor3_sse2 (a b c n : Z) :
  Z.testbit (Z.lxor a (Z.lxor b c)) n = Z.testbit 0x96 (tt_index a b c n).
Proof.
  rewrite !Z.lxor_spec. unfold tt_index, bit.
  destruct (Z.testbit a n), (Z.testbit b n), (Z.testbit c n); reflexivity.
Qed.

Lemma testbit_xorand_sse2 (a b c n : Z) :
  Z.testbit (Z.lxor a (Z.land b c)) n = Z.testbit 0x78 (tt_index a b c n).
Proof.
  rewrite Z.lxor_spec, Z.land_spec. unfold tt_index, bit.
  destruct (Z.testbit a n), (Z.testbit b n), (Z.testbit c n); reflexivity.
Qed.

(** C2.  In every bit position [n] of the vector, the output bit of each
    named ternary combinator is bit [a*4 + b*2 + c] of its truth table
    constant, where [a], [b], [c] are the input bits at position [n]; the
    two input forms repeat [b] as third operand.  At 128 bits this holds
    for [xor3] and [xorand] under every tier. *)
Theorem ternary_truth_table (t : tier) (a b c n : Z) :
  (0 <= n < 512 ->
     Z.testbit (mm512_xor3 a b c) n = Z.testbit 0x96 (tt_index a b c n) /\
     Z.testbit (mm512_and3 a b c) n = Z.testbit 0x80 (tt_index a b c n) /\
     Z.testbit (mm512_or3 a b c) n = Z.testbit 0xfe (tt_index a b c n) /\
     Z.testbit (mm512_xorand a b c) n = Z.testbit 0x78 (tt_index a b c n) /\
     Z.testbit (mm512_andxor a b c) n = Z.testbit 0x60 (tt_index a b c n) /\
     Z.testbit (mm512_xoror a b c) n = Z.testbit 0x1e (tt_index a b c n) /\
     Z.testbit (mm512_xorandnot a b c) n = Z.testbit 0xd2 (tt_index a b c n) /\
     Z.testbit (mm512_orand a b c) n = Z.testbit 0xf8 (tt_index a b c n) /\
     Z.testbit (mm512_nor a b) n = Z.testbit 0x01 (tt_index a b b n) /\
     Z.testbit (mm512_xnor a b) n = Z.testbit 0x81 (tt_index a b b n) /\
     Z.testbit (mm512_nand a b) n = Z.testbit 0xef (tt_index a b b n)) /\
  (0 <= n < 128 ->
     Z.testbit (mm128_xor3 t a b c) n = Z.testbit 0x96 (tt_index a b c n) /\
     Z.testbit (mm128_xorand t a b c) n = Z.testbit 0x78 (tt_index a b c n)).
Proof.
  split; intros Hn.
  - unfold mm512_xor3, mm512_and3, mm512_or3, mm512_xorand, mm512_andxor,
      mm512_xoror, mm512_xorandnot, mm512_orand, mm512_nor, mm512_xnor,
      mm512_nand.
    rewrite !testbit_ternary512 by exact Hn.
    repeat (split; [reflexivity|]). reflexivity.
  - unfold mm128_xor3, mm128_xorand.
    destruct (has_AVX512VL t).
    + rewrite !testbit_ternary128 by exact Hn. split; reflexivity.
    + split; [apply testbit_xor3_sse2 | apply testbit_xorand_sse2].
Qed.

Lemma ternary_truth_table_witness :
  0 <= 1 < 512 /\
  Z.testbit (mm512_xorand 0xc 0xa 0x6) 1
  = Z.testbit 0x78 (tt_index 0xc 0xa 0x6 1).
Proof.
  split; [lia|].
  apply (ternary_truth_table tier_sse2 0xc 0xa 0x6 1). lia.
Defined.

(** X5.  The combinators compute the expressions of their comments, except
    [mm512_nand]: its table [0xef] is that of [~a | b]. *)
Lemma ternary_meaning (a b c n : Z) :
  0 <= n < 512 ->
  let A := Z.testbit a n in
  let B := Z.testbit b n in
  let C := Z.testbit c n in
  Z.testbit (mm512_xor3 a b c) n = xorb A (xorb B C) /\
  Z.testbit (mm512_and3 a b c) n = A && B && C /\
  Z.testbit (mm512_or3 a b c) n = A || B || C /\
  Z.testbit (mm512_xorand a b c) n = xorb A (B && C) /\
  Z.testbit (mm512_andxor a b c) n = A && xorb B C /\
  Z.testbit (mm512_xoror a b c) n = xorb A (B || C) /\
  Z.testbit (mm512_xorandnot a b c) n = xorb A (negb B && C) /\
  Z.testbit (mm512_orand a b c) n = A || (B && C) /\
  Z.testbit (mm512_nor a b) n = negb (A || B) /\
  Z.testbit (mm512_xnor a b) n = negb (xorb A B) /\
  Z.testbit (mm512_nand a b) n = negb A || B.
Proof.
  intros Hn A B C.
  unfold mm512_xor3, mm512_and3, mm512_or3, mm512_xorand, mm512_andxor,
    mm512_xoror, mm512_xorandnot, mm512_orand, mm512_nor, mm512_xnor,
    mm512_nand.
  rewrite !testbit_ternary512 by exact Hn.
  unfold tt_index, bit. subst A B C.
  destruct (Z.testbit a n), (Z.testbit b n), (Z.testbit c n);
    repeat (split; [reflexivity|]); reflexivity.
Qed.

(** X4.  [mm128_xor3] and [mm128_xorand] give the same vector with the
    ternary logic instruction and with the xor/and composition. *)
Lemma mm128_xor3_tiers (t1 t2 : tier) (a b c : Z) :
  vec 128 a -> vec 128 b -> vec 128 c ->
  mm128_xor3 t1 a b c = mm128_xor3 t2 a b c /\
  mm128_xorand t1 a b c = mm128_xorand t2 a b c.
Proof.
  intros Ha Hb Hc.
  assert (X : forall t, mm128_xor3 t a b c = Z.lxor a (Z.lxor b c)).
  { intros t. unfold mm128_xor3. destruct (has_AVX512VL t); [|reflexivity].
    apply Z.bits_inj'. intros n Hn. destruct (Z.ltb_spec n 128).
    - rewrite testbit_ternary128, testbit_xor3_sse2 by lia. reflexivity.
    - rewrite !Z.lxor_spec.
      rewrite (testbit_high 128 a), (testbit_high 128 b), (testbit_high 128 c)
        by (trivial; lia).
      apply (testbit_high 128); [lia | apply (vec_build 64 ltac:(lia) 2) | lia]. }
  assert (Y : forall t, mm128_xorand t a b c = Z.lxor a (Z.land b c)).
  { intros t. unfold mm128_xorand. destruct (has_AVX512VL t); [|reflexivity].
    apply Z.bits_inj'. intros n Hn. destruct (Z.ltb_spec n 128).
    - rewrite testbit_ternary128, testbit_xorand_sse2 by lia. reflexivity.
    - rewrite Z.lxor_spec, Z.land_spec.
      rewrite (testbit_high 128 a), (testbit_high 128 b), (testbit_high 128 c)
        by (trivial; lia).
      apply (testbit_high 128); [lia | apply (vec_build 64 ltac:(lia) 2) | lia]. }
  rewrite !X, !Y. split; reflexivity.
Qed.

(** ** Endian byte swap *)

(** The two ways to build a 128 bit constant from halves agree. *)
Lemma m128_const_64_set (t : tier) (hi lo : Z) :
  m128_const_64 t hi lo = _mm_set_epi64x hi lo.
Proof.
  unfold m128_const_64. destruct (has_SSE4_1 t); [|reflexivity].
  unfold _mm_insert_epi64, _mm_set_epi64x, mm128_mov64_128.
  change (pack 64 [lo; hi]) with (build 64 2 (fun j => nth (Z.to_nat j) [lo; hi] 0)).
  apply build_ext. intros j Hj.
  assert (C : j = 0 \/ j = 1) by lia.
  destruct C; subst j.
  - change (0 =? Z.land 1 1) with false.
    change (nth (Z.to_nat 0) [lo; hi] 0) with lo. cbv iota.
    unfold lane. rewrite Z.mul_0_r, Z.shiftr_0_r.
    rewrite <- !Z.land_assoc, Z.land_diag. reflexivity.
  - reflexivity.
Qed.

Lemma swap16_lane (L r : Z) :
  0 <= L < 2 ^ 16 -> r = 0 \/ r = 1 ->
  lane 8 r (Z.lor (Z.shiftl L 8) (Z.shiftr L 8)) = lane 8 (1 - r) L.
Proof.
  intros HL Hr. apply Z.bits_inj'. intros b Hb.
  rewrite !testbit_lane by lia.
  destruct (Z.ltb_spec b 8); cbn [andb]; [|reflexivity].
  rewrite Z.lor_spec, Z.shiftl_spec, Z.shiftr_spec by lia.
  destruct Hr; subst r.
  - rewrite (Z.testbit_neg_r L) by lia. cbn [orb]. f_equal. lia.
  - rewrite (testbit_high 16 L (b + 8 * 1 + 8)) by (unfold vec; lia).
    rewrite orb_false_r. f_equal. lia.
Qed.

Lemma shift_swap16_gather (v : Z) :
  _mm_or_si128 (_mm_slli_epi16 v 8) (_mm_srli_epi16 v 8)
  = gather 8 16 src_swap16 v.
Proof.
  unfold _mm_or_si128, _mm_slli_epi16, _mm_srli_epi16, pslli, psrli.
  rewrite lor_build by lia.
  change (imm8 8) with 8. change (8 >? 16 - 1) with false. cbv iota.
  apply (vec_eq_lanes 8 ltac:(lia) 16).
  - apply (vec_build 16 ltac:(lia) 8).
  - apply (vec_gather 8 ltac:(lia) 16).
  - intros j Hj.
    rewrite lane_gather by lia.
    rewrite (sublane_build 8 ltac:(lia) 2 8) by lia.
    assert (Hr := Z.mod_pos_bound j 2 ltac:(lia)).
    rewrite swap16_lane by (try apply (lane_range 16); lia).
    unfold src_swap16. cbn [pick].
    apply (lane_lane 8 ltac:(lia) 2). lia.
Qed.

(** The SSE2 byte swaps as byte gathers. *)
Lemma sse2_bswap_gather (c v : Z) :
  src_in_range 16 (src_refine 2 (src_shufflelo c)) = true ->
  src_in_range 16 (src_refine 2 (src_shufflehi c)) = true ->
  _mm_shufflehi_epi16
    (_mm_shufflelo_epi16
       (_mm_or_si128 (_mm_slli_epi16 v 8) (_mm_srli_epi16 v 8)) c) c
  = gather 8 16
      (src_comp (src_refine 2 (src_shufflehi c))
         (src_comp (src_refine 2 (src_shufflelo c)) src_swap16)) v.
Proof.
  intros Hlo Hhi.
  rewrite shift_swap16_gather, shufflelo_epi16_gather, shufflehi_epi16_gather.
  rewrite (gather_refine 8 ltac:(lia) 2 8 (src_shufflelo c)) by lia.
  rewrite (gather_refine 8 ltac:(lia) 2 8 (src_shufflehi c)) by lia.
  change (Z.to_nat 2 * 8)%nat with 16%nat.
  rewrite (gather_gather 8 ltac:(lia) 16 _ src_swap16) by exact Hlo.
  rewrite (gather_gather 8 ltac:(lia) 16) by exact Hhi.
  reflexivity.
Qed.

Ltac closed_check := vm_compute; reflexivity.

Lemma mm128_bswap_64_gather (t : tier) (v : Z) :
  mm128_bswap_64 t v = gather 8 16 (src_shuffle_epi8 ctl128_bswap_64) v.
Proof.
  unfold mm128_bswap_64. rewrite m128_const_64_set.
  destruct (has_SSSE3 t); [apply shuffle_epi8_gather|].
  cbv zeta. rewrite sse2_bswap_gather by closed_check.
  apply gather_same_src. closed_check.
Qed.

Lemma mm128_bswap_32_gather (t : tier) (v : Z) :
  mm128_bswap_32 t v = gather 8 16 (src_shuffle_epi8 ctl128_bswap_32) v.
Proof.
  unfold mm128_bswap_32. rewrite m128_const_64_set.
  destruct (has_SSSE3 t); [apply shuffle_epi8_gather|].
  cbv zeta. rewrite sse2_bswap_gather by closed_check.
  apply gather_same_src. closed_check.
Qed.

Lemma mm128_bswap_16_gather (t : tier) (v : Z) :
  mm128_bswap_16 t v = gather 8 16 (src_shuffle_epi8 ctl128_bswap_16) v.
Proof.
  unfold mm128_bswap_16. rewrite m128_const_64_set.
  destruct (has_SSSE3 t); [apply shuffle_epi8_gather|].
  rewrite shift_swap16_gather.
  apply gather_same_src. closed_check.
Qed.

(** X9.  The byte swaps give the same vector at every tier: the byte shuffle of
    SSSE3 and the shift and word shuffle composition of SSE2 agree. *)
Lemma mm128_bswap_tiers (t1 t2 : tier) (v : Z) :
  mm128_bswap_64 t1 v = mm128_bswap_64 t2 v /\
  mm128_bswap_32 t1 v = mm128_bswap_32 t2 v /\
  mm128_bswap_16 t1 v = mm128_bswap_16 t2 v.
Proof.
  rewrite !mm128_bswap_64_gather, !mm128_bswap_32_gather,
    !mm128_bswap_16_gather.
  repeat split.
Qed.

(** C4.  The endian byte swap applied twice gives the vector back, for the
    element widths 16, 32 and 64: at 128 bits under every tier (the byte
    shuffle of SSSE3 and the shift and word shuffle composition of SSE2),
    and at 512 bits. *)
Theorem bswap_involution (t : tier) (v128 v512 : Z) :
  vec 128 v128 -> vec 512 v512 ->
  mm128_bswap_64 t (mm128_bswap_64 t v128) = v128 /\
  mm128_bswap_32 t (mm128_bswap_32 t v128) = v128 /\
  mm128_bswap_16 t (mm128_bswap_16 t v128) = v128 /\
  mm512_bswap_64 (mm512_bswap_64 v512) = v512 /\
  mm512_bswap_32 (mm512_bswap_32 v512) = v512 /\
  mm512_bswap_16 (mm512_bswap_16 v512) = v512.
Proof.
  intros H128 H512.
  rewrite !mm128_bswap_64_gather, !mm128_bswap_32_gather,
    !mm128_bswap_16_gather.
  unfold mm512_bswap_64, mm512_bswap_32, mm512_bswap_16.
  rewrite !shuffle512_epi8_gather.
  repeat apply conj;
    (apply gather_undoes; [lia | closed_check | assumption]).
Qed.

Lemma bswap_involution_witness :
  vec 128 0x00112233445566778899aabbccddeeff /\ vec 512 7 /\
  mm128_bswap_32 tier_sse2
    (mm128_bswap_32 tier_sse2 0x00112233445566778899aabbccddeeff)
  = 0x00112233445566778899aabbccddeeff.
Proof.
  split; [apply vec_intro; reflexivity|].
  split; [apply vec_intro; reflexivity|].
  apply (bswap_involution tier_sse2 0x00112233445566778899aabbccddeeff 7);
    apply vec_intro; reflexivity.
Defined.

(** ** Rotation by whole bytes as a byte gather *)

Lemma right_rotate_bytes (m k L r : Z) :
  0 < m -> 0 <= k < m -> 0 <= r < m -> 0 <= L < 2 ^ (m * 8) ->
  lane 8 r (right_rotate (m * 8) L (8 * k)) = lane 8 ((r + k) mod m) L.
Proof.
  intros Hm Hk Hr HL.
  assert (Hw : 0 < m * 8) by lia.
  assert (Hrk := Z.mod_pos_bound (r + k) m Hm).
  apply Z.bits_inj'. intros b Hb.
  rewrite !testbit_lane by lia.
  destruct (Z.ltb_spec b 8); cbn [andb]; [|reflexivity].
  rewrite testbit_right_rotate by (trivial; lia).
  destruct (Z.ltb_spec (b + 8 * r) (m * 8)); [|lia]. cbn [andb].
  f_equal.
  rewrite (Z.mod_small (8 * k)) by lia.
  rewrite (mod_wrap (m * 8)) by lia.
  rewrite (mod_wrap m (r + k)) by lia.
  destruct (Z.ltb_spec (r + k) m), (Z.ltb_spec (b + 8 * r + 8 * k) (m * 8)); lia.
Qed.

Lemma prori_bytes (m : Z) (n : nat) (v k : Z) :
  0 < m -> m * 8 <= 255 -> 0 <= k < m ->
  prori (m * 8) n v (8 * k) =
  gather 8 (Z.to_nat m * n) (src_ror_bytes m k) v.
Proof.
  intros Hm Hw Hk. unfold prori. rewrite imm8_small by lia.
  apply (vec_eq_lanes 8 ltac:(lia) (Z.to_nat m * n)).
  - replace (8 * Z.of_nat (Z.to_nat m * n)) with (m * 8 * Z.of_nat n) by lia.
    apply vec_build. lia.
  - apply vec_gather. lia.
  - intros j Hj.
    assert (Hr := Z.mod_pos_bound j m Hm).
    assert (Hq : 0 <= j / m < Z.of_nat n).
    { split; [apply Z.div_pos; lia | apply Z.div_lt_upper_bound; lia]. }
    rewrite lane_gather by lia.
    rewrite sublane_build by lia.
    rewrite right_rotate_bytes by (try apply lane_range; lia).
    unfold src_ror_bytes. cbn [pick].
    apply lane_lane; [lia|]. apply Z.mod_pos_bound. exact Hm.
Qed.

(** ** Byte rotations inside elements at 128 bits, every tier *)

Lemma prori_64_bytes (v k : Z) :
  0 <= k < 8 -> prori 64 2 v (8 * k) = gather 8 16 (src_ror_bytes 8 k) v.
Proof. intros Hk. apply (prori_bytes 8 2 v k); lia. Qed.

Lemma prori_32_bytes (v k : Z) :
  0 <= k < 4 -> prori 32 4 v (8 * k) = gather 8 16 (src_ror_bytes 4 k) v.
Proof. intros Hk. apply (prori_bytes 4 4 v k); lia. Qed.

Lemma mm128_shuflr64_24_gather (t : tier) (v : Z) :
  mm128_shuflr64_24 t v = gather 8 16 (src_ror_bytes 8 3) v.
Proof.
  unfold mm128_shuflr64_24.
  destruct (has_SSSE3 t && negb (has_AVX512VL t)).
  - rewrite shuffle_epi8_gather. apply gather_same_src. closed_check.
  - rewrite mm128_ror_64_native by lia. apply (prori_64_bytes v 3). lia.
Qed.

Lemma mm128_shuflr64_16_gather (t : tier) (v : Z) :
  mm128_shuflr64_16 t v = gather 8 16 (src_ror_bytes 8 2) v.
Proof.
  unfold mm128_shuflr64_16.
  destruct (has_SSSE3 t && negb (has_AVX512VL t)).
  - rewrite shuffle_epi8_gather. apply gather_same_src. closed_check.
  - rewrite mm128_ror_64_native by lia. apply (prori_64_bytes v 2). lia.
Qed.

Lemma mm128_swap32_16_gather (t : tier) (v : Z) :
  mm128_swap32_16 t v = gather 8 16 (src_ror_bytes 4 2) v.
Proof.
  unfold mm128_swap32_16.
  destruct (has_SSSE3 t && negb (has_AVX512VL t)).
  - rewrite shuffle_epi8_gather. apply gather_same_src. closed_check.
  - rewrite mm128_ror_32_native by lia. apply (prori_32_bytes v 2). lia.
Qed.

Lemma mm128_shuflr32_8_gather (t : tier) (v : Z) :
  mm128_shuflr32_8 t v = gather 8 16 (src_ror_bytes 4 1) v.
Proof.
  unfold mm128_shuflr32_8.
  destruct (has_SSSE3 t && negb (has_AVX512VL t)).
  - rewrite shuffle_epi8_gather. apply gather_same_src. closed_check.
  - rewrite mm128_ror_32_native by lia. apply (prori_32_bytes v 1). lia.
Qed.

(** X12.  The byte rotations inside elements give the same vector with the byte
    shuffle tables of SSSE3 and with the bit rotations of the other tiers. *)
Lemma mm128_byte_rotation_tiers (t1 t2 : tier) (v : Z) :
  mm128_shuflr64_24 t1 v = mm128_shuflr64_24 t2 v /\
  mm128_shuflr64_16 t1 v = mm128_shuflr64_16 t2 v /\
  mm128_swap32_16 t1 v = mm128_swap32_16 t2 v /\
  mm128_shuflr32_8 t1 v = mm128_shuflr32_8 t2 v.
Proof.
  rewrite !mm128_shuflr64_24_gather, !mm128_shuflr64_16_gather,
    !mm128_swap32_16_gather, !mm128_shuflr32_8_gather.
  repeat split.
Qed.

(** ** Shuffle-rotate right followed by shuffle-rotate left *)

Ltac undo_gather :=
  apply gather_undoes; [lia | closed_check | assumption].

(** X13.  At 128 bits a rotation of elements to the right followed by the one
    to the left gives the vector back: 64 and 32 bit elements across the
    register, 32 bit elements inside 64 bit elements, 16 bit elements inside
    32 bit ones. *)
Lemma shufl_roundtrip_128 (t : tier) (v : Z) :
  vec 128 v ->
  mm128_shufll_64 (mm128_shuflr_64 v) = v /\
  mm128_shufll_32 (mm128_shuflr_32 v) = v /\
  mm128_shufll64_32 (mm128_shuflr64_32 v) = v /\
  mm128_shufll32_16 t (mm128_shuflr32_16 t v) = v.
Proof.
  intros Hv.
  unfold mm128_shufll_64, mm128_shuflr_64, mm128_swap_64, mm128_shufll_32,
    mm128_shuflr_32, mm128_shufll64_32, mm128_shuflr64_32, mm128_swap64_32,
    mm128_shufll32_16, mm128_shuflr32_16.
  rewrite !shuffle_epi32_gather, !mm128_swap32_16_gather.
  repeat apply conj; undo_gather.
Qed.

(** X14.  At 512 bits, across the register, a rotation to the right followed by
    the one to the left gives the vector back: 8, 16, 32, 64 bit elements and
    128 bit blocks; the 256 bit swap function applied twice does too. *)
Lemma shufl_roundtrip_512 (v : Z) :
  vec 512 v ->
  mm512_shufll_8 (mm512_shuflr_8 v) = v /\
  mm512_shufll_16 (mm512_shuflr_16 v) = v /\
  mm512_shufll_32 (mm512_shuflr_32 v) = v /\
  mm512_shufll_64 (mm512_shuflr_64 v) = v /\
  mm512_shufll_128 (mm512_shuflr_128 v) = v /\
  mm512_swap_256 (mm512_swap_256 v) = v.
Proof.
  intros Hv.
  unfold mm512_shufll_8, mm512_shuflr_8, mm512_shufll_16, mm512_shuflr_16,
    mm512_shufll_32, mm512_shuflr_32, mm512_shufll_64, mm512_shuflr_64,
    mm512_shufll_128, mm512_shuflr_128, mm512_swap_256.
  rewrite !shuffle512_epi8_gather, !permutexvar_epi16_gather.
  rewrite !(alignr_epi32_rot v), !(alignr_epi64_rot v) by exact Hv.
  rewrite !alignr_epi32_rot, !alignr_epi64_rot
    by (first [apply (vec_gather 32); lia | apply (vec_gather 64); lia]).
  repeat apply conj; undo_gather.
Qed.


(** C5 (defect).  The 16 bit rotation inside 256 bit lanes is not undone:
    the index table of [mm512_shuflr256_16] holds [0x0001] where the
    rotation needs [0x001f], so element 30 of its result is element 1 of
    the source and element 31 of the source is lost.  On the vector whose
    only nonzero 16 bit element is element 1, right then left gives a
    different vector. *)
Theorem shuflr256_16_not_undone :
  vec 512 (Z.shiftl 1 16) /\
  mm512_shufll256_16 (mm512_shuflr256_16 (Z.shiftl 1 16))
    = Z.lor (Z.shiftl 1 16) (Z.shiftl 1 496) /\
  mm512_shufll256_16 (mm512_shuflr256_16 (Z.shiftl 1 16)) <> Z.shiftl 1 16.
Proof.
  split; [apply vec_intro; reflexivity|].
  split; [closed_check | vm_compute; discriminate].
Qed.

(** On every vector: element 31 after the round trip is element 1 of the
    source. *)
Lemma shuflr256_16_element_31 (v : Z) :
  lane 16 31 (mm512_shufll256_16 (mm512_shuflr256_16 v)) = lane 16 1 v.
Proof.
  unfold mm512_shufll256_16, mm512_shuflr256_16.
  rewrite !permutexvar_epi16_gather.
  rewrite (gather_gather 16 ltac:(lia)) by closed_check.
  rewrite lane_gather by lia.
  match goal with |- pick 16 v ?s = _ =>
    let r := eval vm_compute in s in change s with r end.
  reflexivity.
Qed.

(** The 256 bit block macros drop their argument: the expansion of
    [mm512_shufll_256( mm512_shuflr_256( v ) )] is the function
    [mm512_swap_256] whatever [v] is. *)
Lemma shufl_256_macros_drop_argument (A : Type) (v : A) :
  mm512_shufll_256 (mm512_shuflr_256 v) = mm512_swap_256.
Proof. reflexivity. Qed.

(** ** Diagonal blend *)

(** Evaluate the mask tests of closed masks and indices. *)
Ltac eval_masks :=
  repeat match goal with
  | |- context [Z.testbit ?k ?j] =>
      let r := eval vm_compute in (Z.testbit k j) in
      progress change (Z.testbit k j) with r
  end; cbv iota.

Ltac blend_lane :=
  unfold _mm512_mask_blend_epi64, _mm512_mask_blend_epi32, _mm_blend_epi32,
    _mm_blend_epi16;
  repeat rewrite lane_pblend by lia;
  eval_masks; try reflexivity.

(** C6 (defect).  The 64 bit element 4 of [mm512_diagonal_64] is element 4
    of [v5], not of [v4]: the blend of [v5] and [v4] uses the mask [0x40],
    which selects element 6, where the diagonal needs [0x10].  No element
    of [v4] reaches the result.  On marked vectors the element 4 of the
    result is the marker of (vector 5, element 4). *)
Theorem diagonal_64_element_4 :
  (forall v7 v6 v5 v4 v3 v2 v1 v0,
     lane 64 4 (mm512_diagonal_64 v7 v6 v5 v4 v3 v2 v1 v0) = lane 64 4 v5) /\
  lane 64 4 (mm512_diagonal_64 (marker_vec 7) (marker_vec 6) (marker_vec 5)
               (marker_vec 4) (marker_vec 3) (marker_vec 2) (marker_vec 1)
               (marker_vec 0)) = 16 * 5 + 4 /\
  lane 64 4 (marker_vec 4) = 16 * 4 + 4.
Proof.
  split; [|split; closed_check].
  intros. unfold mm512_diagonal_64. blend_lane.
Qed.

(** X23.  The 64 bit elements 0, 1, 2, 3, 5, 6 and 7 of [mm512_diagonal_64] are
    on the diagonal: element [i] is element [i] of [vi]. *)
Lemma diagonal_64_other_elements (v7 v6 v5 v4 v3 v2 v1 v0 : Z) :
  let d := mm512_diagonal_64 v7 v6 v5 v4 v3 v2 v1 v0 in
  lane 64 0 d = lane 64 0 v0 /\ lane 64 1 d = lane 64 1 v1 /\
  lane 64 2 d = lane 64 2 v2 /\ lane 64 3 d = lane 64 3 v3 /\
  lane 64 5 d = lane 64 5 v5 /\ lane 64 6 d = lane 64 6 v6 /\
  lane 64 7 d = lane 64 7 v7.
Proof.
  intros d. subst d. unfold mm512_diagonal_64.
  repeat apply conj; blend_lane.
Qed.

(** X24.  [mm512_diagonal128_32]: in each 128 bit lane, the 32 bit element [i]
    comes from [vi]. *)
Lemma diagonal128_32_elements (v3 v2 v1 v0 j : Z) :
  0 <= j < 16 ->
  lane 32 j (mm512_diagonal128_32 v3 v2 v1 v0) =
  lane 32 j (nth (Z.to_nat (j mod 4)) [v0; v1; v2; v3] 0).
Proof.
  intros Hj. unfold mm512_diagonal128_32.
  assert (C : j = 0 \/ j = 1 \/ j = 2 \/ j = 3 \/ j = 4 \/ j = 5 \/ j = 6 \/
              j = 7 \/ j = 8 \/ j = 9 \/ j = 10 \/ j = 11 \/ j = 12 \/
              j = 13 \/ j = 14 \/ j = 15) by lia.
  repeat (destruct C as [C|C]; [subst j; blend_lane|]).
  subst j; blend_lane.
Qed.

(** [mm128_diagonal_32] blends the objects [s3 .. s0] of the place of use
    and does not read its arguments. *)
Lemma diagonal_32_ignores_arguments (t : tier) (s3 s2 s1 s0 : Z)
  (v3 v2 v1 v0 u3 u2 u1 u0 : Z) :
  mm128_diagonal_32 t s3 s2 s1 s0 v3 v2 v1 v0 =
  mm128_diagonal_32 t s3 s2 s1 s0 u3 u2 u1 u0.
Proof. reflexivity. Qed.

(** An element as the sequence of its narrower elements. *)
Lemma lane_as_sublanes (w m j x : Z) :
  0 < w -> 0 < m ->
  lane (m * w) j x = build w (Z.to_nat m) (fun r => lane w (m * j + r) x).
Proof.
  intros Hw Hm.
  rewrite <- (build_lanes w Hw (Z.to_nat m) (lane (m * w) j x)).
  - apply build_eq. intros r Hr. apply lane_lane; lia.
  - replace (w * Z.of_nat (Z.to_nat m)) with (m * w) by lia.
    apply lane_range. lia.
Qed.

(** When the arguments are the objects named [s3 .. s0], both definitions
    give the diagonal. *)
Lemma diagonal_32_elements (t : tier) (s3 s2 s1 s0 d j : Z) :
  mm128_diagonal_32 t s3 s2 s1 s0 s3 s2 s1 s0 = Some d ->
  0 <= j < 4 ->
  lane 32 j d = lane 32 j (nth (Z.to_nat j) [s0; s1; s2; s3] 0).
Proof.
  unfold mm128_diagonal_32. intros H Hj.
  assert (C : j = 0 \/ j = 1 \/ j = 2 \/ j = 3) by lia.
  destruct (has_AVX2 t); [|destruct (has_SSE4_1 t); [|discriminate]];
    injection H as <-.
  - repeat (destruct C as [C|C]; [subst j; blend_lane|]). subst j; blend_lane.
  - rewrite !(lane_as_sublanes 16 2) by lia.
    apply build_eq. intros r Hr.
    assert (R : r = 0 \/ r = 1) by lia.
    destruct C as [C|[C|[C|C]]]; subst j; destruct R; subst r;
      match goal with |- lane 16 ?e _ = _ =>
        let n := eval vm_compute in e in change e with n end;
      blend_lane.
Qed.

(** ** Double buffered rotations *)

(** Without AVX512VL the macros leave in [v1] and [v0] the rotations of
    their former values. *)
Lemma rorx2_emulated (t : tier) (v1 v0 c : Z) :
  has_AVX512VL t = false ->
  (0 <= c < 64 ->
     mm128_rorx2_64 t v1 v0 c = (mm128_ror_64 t v1 c, mm128_ror_64 t v0 c) /\
     mm128_rolx2_64 t v1 v0 c = (mm128_rol_64 t v1 c, mm128_rol_64 t v0 c)) /\
  (0 <= c < 32 ->
     mm128_rorx2_32 t v1 v0 c = (mm128_ror_32 t v1 c, mm128_ror_32 t v0 c) /\
     mm128_rolx2_32 t v1 v0 c = (mm128_rol_32 t v1 c, mm128_rol_32 t v0 c)).
Proof.
  intros Ht.
  unfold mm128_rorx2_64, mm128_rolx2_64, mm128_rorx2_32, mm128_rolx2_32,
    mm128_ror_64, mm128_rol_64, mm128_ror_32, mm128_rol_32.
  rewrite Ht. cbv zeta. unfold _mm_or_si256, _mm_or_si128.
  split; intros _; split; f_equal; apply Z.lor_comm.
Qed.

(** C7 (defect).  Under AVX512VL the double buffered macros leave [v1] and
    [v0] as they were: the replacement text computes the two rotations and
    drops them.  On [v1 = 1], [v0 = 2], [c = 1] the variables keep 1 and 2
    where two single rotations give [2^63] and 1. *)
Theorem rorx2_avx512vl_leaves_operands :
  (forall v1 v0 c,
     mm128_rorx2_64 tier_avx512 v1 v0 c = (v1, v0) /\
     mm128_rolx2_64 tier_avx512 v1 v0 c = (v1, v0) /\
     mm128_rorx2_32 tier_avx512 v1 v0 c = (v1, v0) /\
     mm128_rolx2_32 tier_avx512 v1 v0 c = (v1, v0)) /\
  mm128_rorx2_64 tier_avx512 1 2 1 = (1, 2) /\
  (mm128_ror_64 tier_avx512 1 1, mm128_ror_64 tier_avx512 2 1)
    = (Z.shiftl 1 63, 1).
Proof.
  split; [intros; repeat split | split; closed_check].
Qed.

(** C1 (defect).  The double buffered rotation is offered at two tiers and
    its results differ: on [v1 = 1], [v0 = 2], [c = 1] the SSE2 text leaves
    the rotated values, the AVX512VL text the unrotated ones. *)
Theorem rorx2_tiers_differ :
  mm128_rorx2_64 tier_sse2 1 2 1 = (Z.shiftl 1 63, 1) /\
  mm128_rorx2_64 tier_avx512 1 2 1 = (1, 2) /\
  mm128_rorx2_64 tier_sse2 1 2 1 <> mm128_rorx2_64 tier_avx512 1 2 1.
Proof.
  split; [closed_check|]. split; [closed_check|].
  vm_compute. discriminate.
Qed.

(** ** The remaining operations with more than one definition *)

(** X1.  The 64 and 32 bit rotations give the same vector at every tier (native
    rotate under AVX512VL, shift-or emulation otherwise), for every amount
    below the element width. *)
Lemma mm128_rotate_tiers (t1 t2 : tier) (v c : Z) :
  (0 <= c < 64 ->
     mm128_ror_64 t1 v c = mm128_ror_64 t2 v c /\
     mm128_rol_64 t1 v c = mm128_rol_64 t2 v c) /\
  (0 <= c < 32 ->
     mm128_ror_32 t1 v c = mm128_ror_32 t2 v c /\
     mm128_rol_32 t1 v c = mm128_rol_32 t2 v c).
Proof.
  split; intros Hc.
  - rewrite !mm128_ror_64_native, !mm128_rol_64_native by exact Hc.
    split; reflexivity.
  - rewrite !mm128_ror_32_native, !mm128_rol_32_native by exact Hc.
    split; reflexivity.
Qed.

Lemma m128_const_64_tiers (t1 t2 : tier) (hi lo : Z) :
  m128_const_64 t1 hi lo = m128_const_64 t2 hi lo.
Proof. rewrite !m128_const_64_set. reflexivity. Qed.

(** Concatenate, shift right by eight bytes: the byte align of SSSE3 and
    the two byte shifts of SSE2. *)
Lemma alignr_8_shifts (a b : Z) :
  _mm_alignr_epi8 a b 8 = Z.lor (_mm_srli_si128 b 8) (_mm_slli_si128 a 8).
Proof.
  unfold _mm_alignr_epi8, _mm_srli_si128, _mm_slli_si128.
  change (imm8 8) with 8. change (8 >? 15) with false. cbv iota.
  change (8 * 8) with 64.
  apply Z.bits_inj'. intros n Hn.
  rewrite Z.lor_spec, !Z.land_spec, !Z.shiftr_spec, Z.lor_spec,
    !Z.shiftl_spec by lia.
  rewrite Z.testbit_ones_nonneg by lia.
  replace (n + 64 - 128) with (n - 64) by ring.
  destruct (n <? 128), (Z.testbit b (n + 64)), (Z.testbit a (n - 64));
    reflexivity.
Qed.

(** X18.  The two vector 64 bit shuffles and the 256 bit rotations of a pair by
    64 bits give the same result with the byte align of SSSE3 and with the
    two byte shifts of SSE2. *)
Lemma mm128_shufl2_tiers (t1 t2 : tier) (v1 v2 : Z) :
  mm128_shufl2r_64 t1 v1 v2 = mm128_shufl2r_64 t2 v1 v2 /\
  mm128_shufl2l_64 t1 v1 v2 = mm128_shufl2l_64 t2 v1 v2 /\
  mm128_vror256_64 t1 v1 v2 = mm128_vror256_64 t2 v1 v2 /\
  mm128_vrol256_64 t1 v1 v2 = mm128_vrol256_64 t2 v1 v2.
Proof.
  unfold mm128_shufl2r_64, mm128_shufl2l_64, mm128_vror256_64,
    mm128_vrol256_64, _mm_or_si128. cbv zeta.
  rewrite !alignr_8_shifts.
  rewrite (Z.lor_comm (_mm_slli_si128 v1 8)), (Z.lor_comm (_mm_slli_si128 v2 8)).
  destruct (has_SSSE3 t1), (has_SSSE3 t2); repeat split.
Qed.

(** ** Constant construction *)

Lemma lane_0_l (w i : Z) : lane w i 0 = 0.
Proof. unfold lane. rewrite Z.shiftr_0_l. apply Z.land_0_l. Qed.

Lemma lane_0_small (w x : Z) : 0 < w -> 0 <= x < 2 ^ w -> lane w 0 x = x.
Proof.
  intros Hw Hx. unfold lane. rewrite Z.mul_0_r, Z.shiftr_0_r.
  apply land_ones_small; [exact Hw | exact Hx].
Qed.

(** C8.  [m512_const_64 i7 .. i0] holds the literal [ik] in its 64 bit
    element [k], for [k] from 0 to 7, and every 32 bit element of
    [m128_const1_32 x] is [x]. *)
Theorem constants_hold_their_values
  (i7 i6 i5 i4 i3 i2 i1 i0 x : Z) :
  u64 i7 -> u64 i6 -> u64 i5 -> u64 i4 ->
  u64 i3 -> u64 i2 -> u64 i1 -> u64 i0 -> u32 x ->
  (let c := m512_const_64 i7 i6 i5 i4 i3 i2 i1 i0 in
   lane 64 0 c = i0 /\ lane 64 1 c = i1 /\ lane 64 2 c = i2 /\
   lane 64 3 c = i3 /\ lane 64 4 c = i4 /\ lane 64 5 c = i5 /\
   lane 64 6 c = i6 /\ lane 64 7 c = i7) /\
  (forall j, 0 <= j < 4 -> lane 32 j (m128_const1_32 x) = x).
Proof.
  intros H7 H6 H5 H4 H3 H2 H1 H0 Hx. split.
  - cbv zeta. unfold m512_const_64.
    repeat apply conj; rewrite lane_pack by lia;
      match goal with |- Z.land (nth ?k _ _) _ = _ =>
        let n := eval vm_compute in k in change k with n end;
      cbn [nth]; (apply land_ones_small; [lia | assumption]).
  - intros j Hj. unfold m128_const1_32, _mm_shuffle_epi32, mm128_mov32_128.
    rewrite lane_build by lia.
    change (imm8 0) with 0. rewrite lane_0_l.
    rewrite land_lane_ones.
    rewrite (land_ones_small 32 ltac:(lia) x Hx).
    apply lane_0_small; [lia | exact Hx].
Qed.

Lemma u64_intro (x : Z) : (0 <=? x) && (x <? 2 ^ 64) = true -> u64 x.
Proof. unfold u64. lia. Qed.

Lemma u32_intro (x : Z) : (0 <=? x) && (x <? 2 ^ 32) = true -> u32 x.
Proof. unfold u32. lia. Qed.

Lemma constants_hold_their_values_witness :
  u64 7 /\ u64 0 /\ u32 0xdeadbeef /\
  lane 64 7 (m512_const_64 7 6 5 4 3 2 1 0) = 7 /\
  lane 32 3 (m128_const1_32 0xdeadbeef) = 0xdeadbeef.
Proof.
  split; [apply u64_intro; reflexivity|].
  split; [apply u64_intro; reflexivity|].
  split; [apply u32_intro; reflexivity|].
  destruct (constants_hold_their_values 7 6 5 4 3 2 1 0 0xdeadbeef)
    as [Hc Hb];
    try (apply u64_intro; reflexivity); try (apply u32_intro; reflexivity).
  split; [apply Hc | apply Hb; lia].
Defined.

(** ** Insert and extract of a 32 bit element *)

Ltac eval_closed_tests :=
  repeat match goal with
  | |- context [Z.testbit ?k ?j] =>
      let r := eval vm_compute in (Z.testbit k j) in
      progress change (Z.testbit k j) with r
  | |- context [Z.eqb ?k ?j] =>
      let r := eval vm_compute in (Z.eqb k j) in
      progress change (Z.eqb k j) with r
  end; cbv iota.

Lemma lane_insert_32 (v i c j : Z) :
  0 <= c < 4 -> 0 <= j < 4 ->
  lane 32 j (mm128_insert_32 v i c) =
  if j =? c then Z.land i (Z.ones 32) else lane 32 j v.
Proof.
  intros Hc Hj.
  unfold mm128_insert_32, mm128_xim_32, _mm_castps_si128, _mm_castsi128_ps,
    _mm_insert_ps, mm128_mov32_128.
  rewrite lane_build by lia.
  assert (C : c = 0 \/ c = 1 \/ c = 2 \/ c = 3) by lia.
  assert (J : j = 0 \/ j = 1 \/ j = 2 \/ j = 3) by lia.
  destruct C as [C|[C|[C|C]]]; subst c;
    destruct J as [J|[J|[J|J]]]; subst j;
    match goal with |- context [lane 2 3 ?k] =>
      let r := eval vm_compute in (lane 2 3 k) in change (lane 2 3 k) with r end;
    match goal with |- context [lane 2 2 ?k] =>
      let r := eval vm_compute in (lane 2 2 k) in change (lane 2 2 k) with r end;
    eval_closed_tests;
    rewrite ?land_lane_ones; try reflexivity;
    unfold lane; rewrite Z.mul_0_r, Z.shiftr_0_r, <- !Z.land_assoc, !Z.land_diag;
    reflexivity.
Qed.

Lemma extract_32_lane (v c : Z) :
  0 <= c < 4 -> mm128_extract_32 v c = lane 32 c v.
Proof.
  intros Hc.
  unfold mm128_extract_32, u32_mov128_32, mm128_xim_32, _mm_castps_si128,
    _mm_castsi128_ps, _mm_insert_ps.
  rewrite lane_build by lia.
  assert (C : c = 0 \/ c = 1 \/ c = 2 \/ c = 3) by lia.
  destruct C as [C|[C|[C|C]]]; subst c;
    match goal with |- context [lane 2 3 ?k] =>
      let r := eval vm_compute in (lane 2 3 k) in change (lane 2 3 k) with r end;
    match goal with |- context [lane 2 2 ?k] =>
      let r := eval vm_compute in (lane 2 2 k) in change (lane 2 2 k) with r end;
    eval_closed_tests; apply land_lane_ones.
Qed.

(** C9.  Extracting element [c] after inserting [i] at element [c] gives
    [i], and the insertion leaves the other three 32 bit elements as they
    were. *)
Theorem insert_extract_32 (v i c : Z) :
  u32 i -> 0 <= c < 4 ->
  mm128_extract_32 (mm128_insert_32 v i c) c = i /\
  (forall j, 0 <= j < 4 -> j <> c ->
     lane 32 j (mm128_insert_32 v i c) = lane 32 j v).
Proof.
  intros Hi Hc. split.
  - rewrite extract_32_lane, lane_insert_32 by lia.
    rewrite Z.eqb_refl. apply land_ones_small; [lia | exact Hi].
  - intros j Hj Hne. rewrite lane_insert_32 by lia.
    destruct (Z.eqb_spec j c); [contradiction | reflexivity].
Qed.

Lemma insert_extract_32_witness :
  u32 0xdeadbeef /\ 0 <= 2 < 4 /\
  mm128_extract_32 (mm128_insert_32 0x00112233445566778899aabbccddeeff
                      0xdeadbeef 2) 2 = 0xdeadbeef.
Proof.
  split; [apply u32_intro; reflexivity|].
  split; [lia|].
  apply (insert_extract_32 0x00112233445566778899aabbccddeeff 0xdeadbeef 2);
    [apply u32_intro; reflexivity | lia].
Defined.

(** ** Block memory helpers *)

Lemma store_outside (bytes : nat) (m : mem) (p v a : Z) :
  ~ (p <= a < p + Z.of_nat bytes) -> store bytes m p v a = m a.
Proof.
  intros H. unfold store.
  destruct (Z.leb_spec p a), (Z.ltb_spec a (p + Z.of_nat bytes));
    cbn [andb]; try reflexivity. lia.
Qed.

Lemma store_inside (bytes : nat) (m : mem) (p v a : Z) :
  p <= a < p + Z.of_nat bytes -> store bytes m p v a = lane 8 (a - p) v.
Proof.
  intros H. unfold store.
  destruct (Z.leb_spec p a), (Z.ltb_spec a (p + Z.of_nat bytes));
    cbn [andb]; try reflexivity; lia.
Qed.

Lemma in_zseq (n : nat) (i : Z) : In i (zseq n) <-> 0 <= i < Z.of_nat n.
Proof.
  unfold zseq. rewrite in_map_iff. split.
  - intros [k [<- Hk]]. apply in_seq in Hk. lia.
  - intros H. exists (Z.to_nat i). split; [lia | apply in_seq; lia].
Qed.

(** A loop whose body at index [i] stores one slot at [dst + bytes*i],
    whatever value it stores, leaves every byte outside the [n] slots of
    [dst] as it was. *)
Lemma slot_loop_frame (bytes : nat) (value : Z -> mem -> Z) (dst n : Z)
  (m : mem) (a : Z) :
  ~ (dst <= a < dst + Z.of_nat bytes * n) ->
  for_loop n (fun i m => store bytes m (dst + Z.of_nat bytes * i) (value i m)) m a
  = m a.
Proof.
  intros Ha. unfold for_loop.
  assert (Hin : forall i, In i (zseq (Z.to_nat n)) -> 0 <= i < n).
  { intros i Hi. apply in_zseq in Hi. lia. }
  revert m. induction (zseq (Z.to_nat n)) as [|i l IH]; intros m.
  - reflexivity.
  - cbn [fold_left]. rewrite IH by (intros k Hk; apply Hin; right; exact Hk).
    apply store_outside.
    specialize (Hin i (or_introl eq_refl)). nia.
Qed.

(** With a count that is not positive the loop does not run. *)
Lemma for_loop_nonpos (S : Type) (n : Z) (body : Z -> S -> S) (s : S) :
  n <= 0 -> for_loop n body s = s.
Proof.
  intros Hn. unfold for_loop.
  replace (Z.to_nat n) with 0%nat by lia. reflexivity.
Qed.

(** C10.  The block helpers write inside the [n] vector slots of [dst]
    only: every byte of memory outside [dst .. dst + size*n - 1] keeps its
    value; so does every byte of the source of a copy whose source and
    destination do not overlap; and with [n <= 0] the memory is
    unchanged. *)
Theorem block_helpers_frame (m : mem) (dst src v n a : Z) :
  (~ (dst <= a < dst + 16 * n) ->
     memset_zero_128 m dst n a = m a /\
     memset_128 m dst v n a = m a /\
     memcpy_128 m dst src n a = m a) /\
  (~ (dst <= a < dst + 64 * n) ->
     memset_zero_512 m dst n a = m a /\
     memset_512 m dst v n a = m a /\
     memcpy_512 m dst src n a = m a) /\
  (src + 16 * n <= dst \/ dst + 16 * n <= src ->
     src <= a < src + 16 * n -> memcpy_128 m dst src n a = m a) /\
  (src + 64 * n <= dst \/ dst + 64 * n <= src ->
     src <= a < src + 64 * n -> memcpy_512 m dst src n a = m a) /\
  (n <= 0 ->
     memset_zero_128 m dst n = m /\ memset_128 m dst v n = m /\
     memcpy_128 m dst src n = m /\
     memset_zero_512 m dst n = m /\ memset_512 m dst v n = m /\
     memcpy_512 m dst src n = m).
Proof.
  split; [|split; [|split; [|split]]].
  - intros Ha. repeat apply conj.
    + apply (slot_loop_frame 16 (fun _ _ => m128_zero)). exact Ha.
    + apply (slot_loop_frame 16 (fun _ _ => v)). exact Ha.
    + apply (slot_loop_frame 16 (fun i m => load 16 m (src + 16 * i))).
      exact Ha.
  - intros Ha. repeat apply conj.
    + apply (slot_loop_frame 64 (fun _ _ => m512_zero)). exact Ha.
    + apply (slot_loop_frame 64 (fun _ _ => v)). exact Ha.
    + apply (slot_loop_frame 64 (fun i m => load 64 m (src + 64 * i))).
      exact Ha.
  - intros Hd Ha.
    apply (slot_loop_frame 16 (fun i m => load 16 m (src + 16 * i))). lia.
  - intros Hd Ha.
    apply (slot_loop_frame 64 (fun i m => load 64 m (src + 64 * i))). lia.
  - intros Hn.
    unfold memset_zero_128, memset_128, memcpy_128, memset_zero_512,
      memset_512, memcpy_512.
    rewrite !for_loop_nonpos by exact Hn. repeat split.
Qed.

Lemma block_helpers_frame_witness :
  ~ (32 <= 16 < 32 + 16 * 2) /\
  memset_128 zero_mem 32 0xff 2 16 = zero_mem 16.
Proof.
  split; [lia|].
  destruct (block_helpers_frame zero_mem 32 0 0xff 2 16) as [H _].
  apply H. lia.
Defined.

(** The slots themselves receive the value: after [memset_128] every byte
    of the [n] slots is the corresponding byte of [v]. *)
Lemma memset_128_writes (m : mem) (dst v n a : Z) :
  dst <= a < dst + 16 * n ->
  memset_128 m dst v n a = lane 8 ((a - dst) mod 16) v.
Proof.
  intros Ha. unfold memset_128, for_loop.
  assert (Hn : 0 < n) by lia.
  set (k := (a - dst) / 16).
  assert (Hk : 0 <= k < n).
  { subst k. split; [apply Z.div_pos; lia | apply Z.div_lt_upper_bound; lia]. }
  assert (Hr := Z.mod_pos_bound (a - dst) 16 ltac:(lia)).
  assert (Ea : a - dst = 16 * k + (a - dst) mod 16) by (apply Z.div_mod; lia).
  clearbody k.
  assert (G : forall l m0,
             (In k l \/ m0 a = lane 8 ((a - dst) mod 16) v) ->
             fold_left (fun st i => store 16 st (dst + 16 * i) v) l m0 a
             = lane 8 ((a - dst) mod 16) v).
  { induction l as [|i l IH]; intros m0 [Hin|Hm0]; cbn [fold_left].
    - destruct Hin.
    - exact Hm0.
    - apply IH. destruct Hin as [Hi|Hin]; [right | left; exact Hin].
      subst i. rewrite store_inside by lia. f_equal. lia.
    - apply IH. right.
      destruct (Z.eq_dec i k) as [Hi|Hne].
      + subst i. rewrite store_inside by lia. f_equal. lia.
      + rewrite store_outside by lia. exact Hm0. }
  apply G. left. apply in_zseq. lia.
Qed.

(* ================================================================== *)
(** * Further properties of the headers *)

(** ** Rotation amounts: complements, the full width and beyond *)

Lemma right_rotate_as_left (w x k : Z) :
  0 < k < w -> right_rotate w x k = left_rotate w x (w - k).
Proof.
  intros Hk. unfold right_rotate, left_rotate.
  rewrite !Z.mod_small by lia.
  replace (w - (w - k)) with k by ring.
  rewrite Z.lor_comm. reflexivity.
Qed.

Lemma prori_as_proli (w : Z) (n : nat) (v k : Z) :
  0 < k < w -> w <= 255 -> prori w n v k = proli w n v (w - k).
Proof.
  intros Hk Hw. unfold prori, proli. apply build_eq. intros j _.
  rewrite !imm8_small by lia. apply right_rotate_as_left. exact Hk.
Qed.

(** X2.  A rotation to the right by [k] is the rotation to the left by the
    width minus [k], for the 64, 32 and 16 bit rotations of simd-128.h at
    every tier and for the 512 bit ones. *)
Theorem rotate_right_is_left_complement (t : tier) (v k : Z) :
  (0 < k < 64 ->
     mm128_ror_64 t v k = mm128_rol_64 t v (64 - k) /\
     mm512_ror_64 v k = mm512_rol_64 v (64 - k)) /\
  (0 < k < 32 ->
     mm128_ror_32 t v k = mm128_rol_32 t v (32 - k) /\
     mm512_ror_32 v k = mm512_rol_32 v (32 - k)) /\
  (0 < k < 16 -> mm128_ror_16 v k = mm128_rol_16 v (16 - k)).
Proof.
  split; [|split]; intros Hk; [split | split |].
  - rewrite mm128_ror_64_native, mm128_rol_64_native by lia.
    apply prori_as_proli; lia.
  - apply (prori_as_proli 64); lia.
  - rewrite mm128_ror_32_native, mm128_rol_32_native by lia.
    apply prori_as_proli; lia.
  - apply (prori_as_proli 32); lia.
  - rewrite mm128_ror_16_native, mm128_rol_16_native by lia.
    apply prori_as_proli; lia.
Qed.

Lemma rotate_right_is_left_complement_witness :
  0 < 24 < 64 /\
  mm128_ror_64 tier_sse2 0x0123456789abcdef 24
  = mm128_rol_64 tier_sse2 0x0123456789abcdef (64 - 24).
Proof.
  split; [lia|].
  destruct (rotate_right_is_left_complement tier_sse2 0x0123456789abcdef 24)
    as [H _].
  apply H. lia.
Defined.

Lemma build_zero (w : Z) (n : nat) : build w n (fun _ => 0) = 0.
Proof.
  unfold build. induction (zseq n) as [|i l IH]; cbn [map pack];
    [reflexivity|].
  rewrite IH, Z.land_0_l, Z.shiftl_0_l. reflexivity.
Qed.

Lemma psrli_large (w : Z) (n : nat) (v c : Z) :
  w <= imm8 c -> psrli w n v c = 0.
Proof.
  intros H. unfold psrli.
  destruct (Z.gtb_spec (imm8 c) (w - 1)); [apply build_zero | lia].
Qed.

Lemma pslli_large (w : Z) (n : nat) (v c : Z) :
  w <= imm8 c -> pslli w n v c = 0.
Proof.
  intros H. unfold pslli.
  destruct (Z.gtb_spec (imm8 c) (w - 1)); [apply build_zero | lia].
Qed.

Lemma imm8_mod (c : Z) : imm8 c = c mod 256.
Proof.
  unfold imm8. change 255 with (Z.ones 8). apply Z.land_ones. lia.
Qed.

Lemma shift_by_zero (w : Z) (n : nat) (v : Z) :
  0 < w -> vec (w * Z.of_nat n) v -> psrli w n v 0 = v /\ pslli w n v 0 = v.
Proof.
  intros Hw Hv. unfold psrli, pslli. change (imm8 0) with 0.
  destruct (Z.gtb_spec 0 (w - 1)); [lia|].
  split; (transitivity (build w n (fun j => lane w j v));
    [apply build_eq; intros j _; first [apply Z.shiftr_0_r | apply Z.shiftl_0_r]
    | apply build_lanes; assumption]).
Qed.

(** X3.  Beyond the element width the 64 bit rotations of simd-128.h depend on
    the tier.  With the amount 64 the shift-or emulation gives the vector
    back, as the native rotation does; with an amount from 65 to 255 the
    emulation gives the zero vector, while the native rotation rotates by
    the amount modulo 64. *)
Theorem rotate_64_beyond_width (t : tier) (v c : Z) :
  vec 128 v ->
  (has_AVX512VL t = false ->
     mm128_ror_64 t v 64 = v /\ mm128_rol_64 t v 64 = v /\
     (64 < c < 256 -> mm128_ror_64 t v c = 0 /\ mm128_rol_64 t v c = 0)) /\
  (has_AVX512VL t = true ->
     0 <= c < 256 ->
     mm128_ror_64 t v c = mm128_ror_64 t v (c mod 64) /\
     mm128_rol_64 t v c = mm128_rol_64 t v (c mod 64)).
Proof.
  intros Hv. unfold mm128_ror_64, mm128_rol_64. split; intros Ht; rewrite Ht.
  - unfold _mm_or_si128, _mm_srli_epi64, _mm_slli_epi64.
    change (64 - 64) with 0.
    destruct (shift_by_zero 64 2 v ltac:(lia) Hv) as [Er El].
    rewrite Er, El.
    rewrite (psrli_large 64 2 v 64), (pslli_large 64 2 v 64)
      by (vm_compute; discriminate).
    split; [reflexivity|]. split; [reflexivity|].
    intros Hc.
    assert (E1 : 64 <= imm8 c) by (rewrite imm8_small; lia).
    assert (E2 : 64 <= imm8 (64 - c)).
    { rewrite imm8_mod.
      replace (64 - c) with (320 - c + (-1) * 256) by ring.
      rewrite Z_mod_plus_full, Z.mod_small; lia. }
    rewrite !psrli_large, !pslli_large by assumption.
    split; reflexivity.
  - intros Hc. unfold _mm_ror_epi64, _mm_rol_epi64, prori, proli.
    assert (Hm := Z.mod_pos_bound c 64 ltac:(lia)).
    rewrite !imm8_small by lia.
    unfold right_rotate, left_rotate. rewrite Z.mod_mod by lia.
    split; reflexivity.
Qed.

Lemma rotate_64_beyond_width_witness :
  vec 128 0x0123456789abcdef /\ 64 < 72 < 256 /\
  mm128_ror_64 tier_sse2 0x0123456789abcdef 72 = 0.
Proof.
  split; [apply vec_intro; reflexivity|]. split; [lia|].
  destruct (rotate_64_beyond_width tier_sse2 0x0123456789abcdef 72)
    as [[_ [_ H]] _]; [apply vec_intro; reflexivity | reflexivity |].
  apply H. lia.
Defined.

(** ** Two input shuffle-rotates *)

Lemma vec_alignr_epi8 (a b c : Z) : vec 128 (_mm_alignr_epi8 a b c).
Proof.
  unfold _mm_alignr_epi8, vec. rewrite Z.land_ones by lia.
  apply Z.mod_pos_bound. lia.
Qed.

(** The halves of a byte align by eight: the high half of [b], then the low
    half of [a]. *)
Lemma alignr_8_lanes (a b : Z) :
  vec 128 b ->
  lane 64 0 (_mm_alignr_epi8 a b 8) = lane 64 1 b /\
  lane 64 1 (_mm_alignr_epi8 a b 8) = lane 64 0 a.
Proof.
  intros Hb. unfold _mm_alignr_epi8.
  change (imm8 8 * 8) with (64 * 1). change 128 with (64 * Z.of_nat 2).
  split; rewrite lane_concat_shift by (trivial; lia); reflexivity.
Qed.

Lemma shufl2_as_alignr (t : tier) (v1 v2 : Z) :
  mm128_shufl2r_64 t v1 v2 = _mm_alignr_epi8 v2 v1 8 /\
  mm128_shufl2l_64 t v1 v2 = _mm_alignr_epi8 v1 v2 8 /\
  mm128_vror256_64 t v1 v2 = (_mm_alignr_epi8 v2 v1 8, _mm_alignr_epi8 v1 v2 8) /\
  mm128_vrol256_64 t v1 v2 = (_mm_alignr_epi8 v1 v2 8, _mm_alignr_epi8 v2 v1 8).
Proof.
  unfold mm128_shufl2r_64, mm128_shufl2l_64, mm128_vror256_64,
    mm128_vrol256_64, _mm_or_si128. cbv zeta.
  rewrite !alignr_8_shifts.
  rewrite (Z.lor_comm (_mm_slli_si128 v1 8)), (Z.lor_comm (_mm_slli_si128 v2 8)).
  destruct (has_SSSE3 t); repeat apply conj; reflexivity.
Qed.

(** X19.  [mm128_shufl2r_64( v1, v2 )] holds the high half of [v1] in its low
    half and the low half of [v2] in its high half; [mm128_shufl2l_64] the
    high half of [v2] and the low half of [v1]; at every tier. *)
Theorem shufl2_64_halves (t : tier) (v1 v2 : Z) :
  vec 128 v1 -> vec 128 v2 ->
  lane 64 0 (mm128_shufl2r_64 t v1 v2) = lane 64 1 v1 /\
  lane 64 1 (mm128_shufl2r_64 t v1 v2) = lane 64 0 v2 /\
  lane 64 0 (mm128_shufl2l_64 t v1 v2) = lane 64 1 v2 /\
  lane 64 1 (mm128_shufl2l_64 t v1 v2) = lane 64 0 v1.
Proof.
  intros H1 H2.
  destruct (shufl2_as_alignr t v1 v2) as [Er [El _]]. rewrite Er, El.
  destruct (alignr_8_lanes v2 v1 H1) as [A B].
  destruct (alignr_8_lanes v1 v2 H2) as [C D].
  repeat apply conj; assumption.
Qed.

Lemma shufl2_64_halves_witness :
  vec 128 0x00112233445566778899aabbccddeeff /\
  vec 128 0x0f1e2d3c4b5a69788796a5b4c3d2e1f0 /\
  lane 64 0 (mm128_shufl2r_64 tier_sse2 0x00112233445566778899aabbccddeeff
               0x0f1e2d3c4b5a69788796a5b4c3d2e1f0)
  = lane 64 1 0x00112233445566778899aabbccddeeff.
Proof.
  split; [apply vec_intro; reflexivity|].
  split; [apply vec_intro; reflexivity|].
  destruct (shufl2_64_halves tier_sse2 0x00112233445566778899aabbccddeeff
              0x0f1e2d3c4b5a69788796a5b4c3d2e1f0) as [H _];
    [apply vec_intro; reflexivity | apply vec_intro; reflexivity | exact H].
Defined.

Lemma alignr_8_twice (a b : Z) :
  vec 128 a -> vec 128 b ->
  _mm_alignr_epi8 (_mm_alignr_epi8 b a 8) (_mm_alignr_epi8 a b 8) 8 = a.
Proof.
  intros Ha Hb.
  apply (vec_eq_lanes 64 ltac:(lia) 2); [apply vec_alignr_epi8 | exact Ha |].
  intros j Hj.
  destruct (alignr_8_lanes (_mm_alignr_epi8 b a 8) (_mm_alignr_epi8 a b 8)
              (vec_alignr_epi8 a b 8)) as [A B].
  destruct (alignr_8_lanes a b Hb) as [_ A'].
  destruct (alignr_8_lanes b a Ha) as [B' _].
  assert (C : j = 0 \/ j = 1) by lia.
  destruct C; subst j; congruence.
Qed.

(** X20.  The 256 bit rotation by 64 bits of a pair of vectors, right and then
    left or left and then right, gives the pair back, at every tier. *)
Theorem vror256_vrol256_undo (t : tier) (v1 v2 : Z) :
  vec 128 v1 -> vec 128 v2 ->
  (let r := mm128_vror256_64 t v1 v2 in
   mm128_vrol256_64 t (fst r) (snd r) = (v1, v2)) /\
  (let l := mm128_vrol256_64 t v1 v2 in
   mm128_vror256_64 t (fst l) (snd l) = (v1, v2)).
Proof.
  intros H1 H2. cbv zeta.
  destruct (shufl2_as_alignr t v1 v2) as [_ [_ [Er El]]].
  rewrite Er, El. cbn [fst snd].
  destruct (shufl2_as_alignr t (_mm_alignr_epi8 v2 v1 8)
              (_mm_alignr_epi8 v1 v2 8)) as [_ [_ [_ El']]].
  destruct (shufl2_as_alignr t (_mm_alignr_epi8 v1 v2 8)
              (_mm_alignr_epi8 v2 v1 8)) as [_ [_ [Er' _]]].
  rewrite El', Er'.
  rewrite !alignr_8_twice by assumption. split; reflexivity.
Qed.

Lemma vror256_vrol256_undo_witness :
  vec 128 1 /\ vec 128 2 /\
  mm128_vrol256_64 tier_ssse3 (fst (mm128_vror256_64 tier_ssse3 1 2))
    (snd (mm128_vror256_64 tier_ssse3 1 2)) = (1, 2).
Proof.
  split; [apply vec_intro; reflexivity|].
  split; [apply vec_intro; reflexivity|].
  destruct (vror256_vrol256_undo tier_ssse3 1 2) as [H _];
    [apply vec_intro; reflexivity | apply vec_intro; reflexivity | exact H].
Defined.

(** ** The limited two input shuffles *)

(** X21.  Whatever the control, [mm128_shuffle2_64] and [mm128_shuffle2_32] take
    the low half of the result from [v1] and the high half from [v2]: each
    element of the low half is an element of [v1], each element of the high
    half an element of [v2]. *)
Theorem shuffle2_low_from_first_high_from_second (v1 v2 c : Z) :
  (exists i, 0 <= i < 2 /\ lane 64 0 (mm128_shuffle2_64 v1 v2 c) = lane 64 i v1) /\
  (exists i, 0 <= i < 2 /\ lane 64 1 (mm128_shuffle2_64 v1 v2 c) = lane 64 i v2) /\
  (forall j, 0 <= j < 2 ->
     exists i, 0 <= i < 4 /\ lane 32 j (mm128_shuffle2_32 v1 v2 c) = lane 32 i v1) /\
  (forall j, 2 <= j < 4 ->
     exists i, 0 <= i < 4 /\ lane 32 j (mm128_shuffle2_32 v1 v2 c) = lane 32 i v2).
Proof.
  unfold mm128_shuffle2_64, mm128_shuffle2_32, _mm_castpd_si128,
    _mm_castsi128_pd, _mm_castps_si128, _mm_castsi128_ps, _mm_shuffle_pd,
    _mm_shuffle_ps.
  assert (Hb : forall k, 0 <= bit (imm8 c) k < 2).
  { intros k. unfold bit. destruct (Z.testbit (imm8 c) k); cbn; lia. }
  assert (Hl : forall k, 0 <= lane 2 k (imm8 c) < 4).
  { intros k. apply (lane_range 2). lia. }
  repeat apply conj.
  - exists (bit (imm8 c) 0). split; [apply Hb|].
    rewrite lane_build by lia. cbn [Z.eqb]. apply land_lane_ones.
  - exists (bit (imm8 c) 1). split; [apply Hb|].
    rewrite lane_build by lia. cbn [Z.eqb]. apply land_lane_ones.
  - intros j Hj. exists (lane 2 j (imm8 c)). split; [apply Hl|].
    rewrite lane_build by lia.
    destruct (Z.ltb_spec j 2); [|lia]. apply land_lane_ones.
  - intros j Hj. exists (lane 2 j (imm8 c)). split; [apply Hl|].
    rewrite lane_build by lia.
    destruct (Z.ltb_spec j 2); [lia|]. apply land_lane_ones.
Qed.

(** ** Instances of the tier and round trip lemmas *)

Lemma mm128_rotate_tiers_witness :
  0 <= 13 < 64 /\
  mm128_ror_64 tier_sse2 0x0123456789abcdef 13
  = mm128_ror_64 tier_avx512 0x0123456789abcdef 13.
Proof.
  split; [lia|].
  destruct (mm128_rotate_tiers tier_sse2 tier_avx512 0x0123456789abcdef 13)
    as [H _].
  apply H. lia.
Defined.

Lemma mm128_xor3_tiers_witness :
  vec 128 5 /\ vec 128 3 /\ vec 128 1 /\
  mm128_xor3 tier_sse2 5 3 1 = mm128_xor3 tier_avx512 5 3 1.
Proof.
  repeat (split; [apply vec_intro; reflexivity|]).
  destruct (mm128_xor3_tiers tier_sse2 tier_avx512 5 3 1) as [H _];
    [apply vec_intro; reflexivity .. | exact H].
Defined.

Lemma ternary_meaning_witness :
  0 <= 2 < 512 /\
  Z.testbit (mm512_nand 0xc 0xa) 2
  = negb (Z.testbit 0xc 2) || Z.testbit 0xa 2.
Proof.
  split; [lia|].
  destruct (ternary_meaning 0xc 0xa 0 2) as [_ [_ [_ [_ [_ [_ [_ [_ [_ [_ H]]]]]]]]]];
    [lia | exact H].
Defined.

Lemma rorx2_emulated_witness :
  has_AVX512VL tier_sse2 = false /\ 0 <= 1 < 64 /\
  mm128_rorx2_64 tier_sse2 1 2 1
  = (mm128_ror_64 tier_sse2 1 1, mm128_ror_64 tier_sse2 2 1).
Proof.
  split; [reflexivity|]. split; [lia|].
  destruct (rorx2_emulated tier_sse2 1 2 1) as [H _]; [reflexivity|].
  apply H. lia.
Defined.

Lemma shufl_roundtrip_128_witness :
  vec 128 0x00112233445566778899aabbccddeeff /\
  mm128_shufll_32 (mm128_shuflr_32 0x00112233445566778899aabbccddeeff)
  = 0x00112233445566778899aabbccddeeff.
Proof.
  split; [apply vec_intro; reflexivity|].
  destruct (shufl_roundtrip_128 tier_sse2 0x00112233445566778899aabbccddeeff)
    as [_ [H _]]; [apply vec_intro; reflexivity | exact H].
Defined.

Lemma shufl_roundtrip_512_witness :
  vec 512 0x00112233445566778899aabbccddeeff /\
  mm512_shufll_8 (mm512_shuflr_8 0x00112233445566778899aabbccddeeff)
  = 0x00112233445566778899aabbccddeeff.
Proof.
  split; [apply vec_intro; reflexivity|].
  destruct (shufl_roundtrip_512 0x00112233445566778899aabbccddeeff)
    as [H _]; [apply vec_intro; reflexivity | exact H].
Defined.


Lemma diagonal128_32_elements_witness :
  0 <= 6 < 16 /\
  lane 32 6 (mm512_diagonal128_32 3 (Z.shiftl 7 192) 1 0)
  = lane 32 6 (Z.shiftl 7 192).
Proof.
  split; [lia|].
  apply (diagonal128_32_elements 3 (Z.shiftl 7 192) 1 0 6). lia.
Defined.

Lemma diagonal_32_elements_witness :
  0 <= 2 < 4 /\
  mm128_diagonal_32 tier_avx2 3 (Z.shiftl 7 64) 1 0 3 (Z.shiftl 7 64) 1 0
  = Some (Z.shiftl 7 64) /\
  lane 32 2 (Z.shiftl 7 64)
  = lane 32 2 (nth (Z.to_nat 2) [0; 1; Z.shiftl 7 64; 3] 0).
Proof.
  split; [lia|]. split; [vm_compute; reflexivity|].
  apply (diagonal_32_elements tier_avx2 3 (Z.shiftl 7 64) 1 0
           (Z.shiftl 7 64) 2);
    [vm_compute; reflexivity | lia].
Defined.

(** ** Loads, stores and slot loops *)

Lemma zseq_succ (k : nat) : zseq (S k) = zseq k ++ [Z.of_nat k].
Proof. unfold zseq. rewrite seq_S, map_app. reflexivity. Qed.

Lemma load_ext (B : nat) (m1 m2 : mem) (p : Z) :
  (forall x, p <= x < p + Z.of_nat B -> m1 x = m2 x) ->
  load B m1 p = load B m2 p.
Proof.
  intros H. unfold load. apply build_eq. intros j Hj. apply H. lia.
Qed.

Lemma load_store_same (B : nat) (m : mem) (p v : Z) :
  vec (8 * Z.of_nat B) v -> load B (store B m p v) p = v.
Proof.
  intros Hv. unfold load.
  transitivity (build 8 B (fun j => lane 8 j v));
    [|apply build_lanes; [lia | exact Hv]].
  apply build_eq. intros j Hj.
  rewrite store_inside by lia. f_equal. lia.
Qed.

Lemma load_store_other (B : nat) (m : mem) (p q v : Z) :
  p + Z.of_nat B <= q \/ q + Z.of_nat B <= p ->
  load B (store B m p v) q = load B m q.
Proof.
  intros H. apply load_ext. intros x Hx. apply store_outside. lia.
Qed.

Lemma vec_load (B : nat) (m : mem) (p : Z) : vec (8 * Z.of_nat B) (load B m p).
Proof. apply vec_build. lia. Qed.

Section SlotLoop.

Variable B : nat.
Variable F : Z -> Z -> Z.
Variables dst src : Z.
Variable m0 : mem.
Hypothesis B_pos : (0 < B)%nat.
Hypothesis F_vec :
  forall i x, vec (8 * Z.of_nat B) x -> vec (8 * Z.of_nat B) (F i x).

Let step (m : mem) (i : Z) : mem :=
  store B m (dst + Z.of_nat B * i) (F i (load B m (src + Z.of_nat B * i))).

(** Forward slot loop: outside the slots written so far nothing changes. *)
Lemma slot_fold_frame (k : nat) (x : Z) :
  ~ (dst <= x < dst + Z.of_nat B * Z.of_nat k) ->
  fold_left step (zseq k) m0 x = m0 x.
Proof.
  induction k as [|k IH]; intros Hx; [reflexivity|].
  rewrite zseq_succ, fold_left_app. cbn [fold_left]. unfold step at 1.
  rewrite store_outside by nia. apply IH. nia.
Qed.

(** When the destination does not start above the source inside its range,
    each slot receives [F] of the original source slot. *)
Lemma slot_fold_result (n k : nat) (i : Z) :
  dst <= src \/ src + Z.of_nat B * Z.of_nat n <= dst ->
  (k <= n)%nat -> 0 <= i < Z.of_nat k ->
  load B (fold_left step (zseq k) m0) (dst + Z.of_nat B * i)
  = F i (load B m0 (src + Z.of_nat B * i)).
Proof.
  intros Hd. induction k as [|k IH]; intros Hk Hi; [lia|].
  rewrite zseq_succ, fold_left_app. cbn [fold_left]. unfold step at 1.
  destruct (Z.eq_dec i (Z.of_nat k)) as [E|E].
  - subst i. rewrite load_store_same by (apply F_vec; apply vec_load).
    f_equal. apply load_ext. intros x Hx. apply slot_fold_frame. nia.
  - rewrite load_store_other by nia. apply IH; lia.
Qed.

End SlotLoop.

(** ** What the block helpers leave in the slots *)

(** X28.  After a block set every one of the [n] destination slots holds the
    value (zero for the zeroing helpers). *)
Theorem memset_fills_slots (m : mem) (dst a128 a512 n i : Z) :
  vec 128 a128 -> vec 512 a512 -> 0 <= i < n ->
  load 16 (memset_128 m dst a128 n) (dst + 16 * i) = a128 /\
  load 16 (memset_zero_128 m dst n) (dst + 16 * i) = 0 /\
  load 64 (memset_512 m dst a512 n) (dst + 64 * i) = a512 /\
  load 64 (memset_zero_512 m dst n) (dst + 64 * i) = 0.
Proof.
  intros H128 H512 Hi.
  assert (Z0 : forall b, vec b 0 \/ b < 0).
  { intros b. destruct (Z.ltb_spec b 0); [right; lia|].
    left. unfold vec. split; [lia | apply Z.pow_pos_nonneg; lia]. }
  unfold memset_128, memset_zero_128, memset_512, memset_zero_512, for_loop.
  repeat apply conj.
  - apply (slot_fold_result 16 (fun _ _ => a128) dst dst m ltac:(lia)
             (fun _ _ _ => H128) (Z.to_nat n) (Z.to_nat n) i); lia.
  - apply (slot_fold_result 16 (fun _ _ => m128_zero) dst dst m ltac:(lia)
             (fun _ _ _ => ltac:(apply vec_intro; reflexivity))
             (Z.to_nat n) (Z.to_nat n) i); lia.
  - apply (slot_fold_result 64 (fun _ _ => a512) dst dst m ltac:(lia)
             (fun _ _ _ => H512) (Z.to_nat n) (Z.to_nat n) i); lia.
  - apply (slot_fold_result 64 (fun _ _ => m512_zero) dst dst m ltac:(lia)
             (fun _ _ _ => ltac:(apply vec_intro; reflexivity))
             (Z.to_nat n) (Z.to_nat n) i); lia.
Qed.

Lemma memset_fills_slots_witness :
  vec 128 0xff /\ vec 512 0xee /\ 0 <= 1 < 2 /\
  load 16 (memset_128 zero_mem 32 0xff 2) (32 + 16 * 1) = 0xff.
Proof.
  split; [apply vec_intro; reflexivity|].
  split; [apply vec_intro; reflexivity|].
  split; [lia|].
  destruct (memset_fills_slots zero_mem 32 0xff 0xee 2 1) as [H _];
    [apply vec_intro; reflexivity | apply vec_intro; reflexivity | lia
    | exact H].
Defined.

(** X29.  A block copy whose destination starts at or below the source, or
    behind the end of the source, leaves in every destination slot the
    original content of the corresponding source slot. *)
Theorem memcpy_copies_slots (m : mem) (dst src n i : Z) :
  0 <= i < n ->
  (dst <= src \/ src + 16 * n <= dst ->
     load 16 (memcpy_128 m dst src n) (dst + 16 * i) = load 16 m (src + 16 * i)) /\
  (dst <= src \/ src + 64 * n <= dst ->
     load 64 (memcpy_512 m dst src n) (dst + 64 * i) = load 64 m (src + 64 * i)).
Proof.
  intros Hi. unfold memcpy_128, memcpy_512, for_loop. split; intros Hd.
  - apply (slot_fold_result 16 (fun _ x => x) dst src m ltac:(lia)
             (fun _ _ H => H) (Z.to_nat n) (Z.to_nat n) i); lia.
  - apply (slot_fold_result 64 (fun _ x => x) dst src m ltac:(lia)
             (fun _ _ H => H) (Z.to_nat n) (Z.to_nat n) i); lia.
Qed.

Lemma memcpy_copies_slots_witness :
  0 <= 1 < 2 /\ (0 <= 16 \/ 16 + 16 * 2 <= 0) /\
  load 16 (memcpy_128 (fun x => x) 0 16 2) (0 + 16 * 1)
  = load 16 (fun x => x) (16 + 16 * 1).
Proof.
  split; [lia|]. split; [lia|].
  destruct (memcpy_copies_slots (fun x => x) 0 16 2 1) as [H _]; [lia|].
  apply H. lia.
Defined.

Lemma memcpy_spread_steps (m : mem) (src : Z) (k : nat) (i : Z) :
  0 <= i < Z.of_nat k ->
  load 16
    (fold_left (fun st j =>
       store 16 st (src + 16 + 16 * j) (load 16 st (src + 16 * j)))
       (zseq k) m)
    (src + 16 + 16 * i)
  = load 16 m src.
Proof.
  revert i. induction k as [|k IH]; intros i Hi; [lia|].
  rewrite zseq_succ, fold_left_app. cbn [fold_left].
  set (mk := fold_left _ (zseq k) m) in *.
  assert (V : load 16 mk (src + 16 * Z.of_nat k) = load 16 m src).
  { destruct k as [|k'].
    - subst mk. cbn [zseq seq map fold_left]. f_equal. lia.
    - replace (src + 16 * Z.of_nat (S k'))
        with (src + 16 + 16 * Z.of_nat k') by lia.
      apply IH. lia. }
  destruct (Z.eq_dec i (Z.of_nat k)) as [E|E].
  - subst i. rewrite load_store_same by apply vec_load. exact V.
  - rewrite load_store_other by lia. apply IH. lia.
Qed.

(** X30.  A block copy to the slot just above the source start spreads the
    first source slot: the destination overlaps the source from above and
    every destination slot ends with the original content of source slot
    0. *)
Theorem memcpy_overlap_above_spreads (m : mem) (src n i : Z) :
  0 <= i < n ->
  load 16 (memcpy_128 m (src + 16) src n) (src + 16 + 16 * i) = load 16 m src.
Proof.
  intros Hi. unfold memcpy_128, for_loop.
  apply memcpy_spread_steps. lia.
Qed.

Lemma memcpy_overlap_above_spreads_witness :
  0 <= 2 < 3 /\
  load 16 (memcpy_128 (fun x => x) (0 + 16) 0 3) (0 + 16 + 16 * 2)
  = load 16 (fun x => x) 0.
Proof.
  split; [lia|].
  apply (memcpy_overlap_above_spreads (fun x => x) 0 3 2). lia.
Defined.

(** ** Block byte swaps *)

Lemma block_bswap_128_fold (t : tier) (m : mem) (d s : Z) :
  mm128_block_bswap_64 t m d s =
    fold_left (fun m i =>
      store 16 m (d + 16 * i) (mm128_bswap_64 t (load 16 m (s + 16 * i))))
      (zseq 8) m /\
  mm128_block_bswap_32 t m d s =
    fold_left (fun m i =>
      store 16 m (d + 16 * i) (mm128_bswap_32 t (load 16 m (s + 16 * i))))
      (zseq 8) m.
Proof.
  unfold mm128_block_bswap_64, mm128_block_bswap_32, mm128_bswap_64,
    mm128_bswap_32.
  destruct (has_SSSE3 t); split; reflexivity.
Qed.

Lemma vec_bswap_128 (t : tier) (v : Z) :
  vec 128 (mm128_bswap_64 t v) /\ vec 128 (mm128_bswap_32 t v).
Proof.
  rewrite mm128_bswap_64_gather, mm128_bswap_32_gather.
  split; apply (vec_gather 8 ltac:(lia) 16).
Qed.

Lemma vec_shuffle512_epi8 (a b : Z) : vec 512 (_mm512_shuffle_epi8 a b).
Proof. apply (vec_build 8 ltac:(lia) 64). Qed.

(** X10.  A block byte swap leaves in each of the eight destination slots the
    byte swap of the original content of the corresponding source slot,
    when the destination is the source itself, starts below it, or lies
    behind its end; at 128 bits under every tier, and at 512 bits. *)
Theorem block_bswap_is_slotwise (t : tier) (m : mem) (d s i : Z) :
  0 <= i < 8 ->
  (d <= s \/ s + 16 * 8 <= d ->
     load 16 (mm128_block_bswap_64 t m d s) (d + 16 * i)
       = mm128_bswap_64 t (load 16 m (s + 16 * i)) /\
     load 16 (mm128_block_bswap_32 t m d s) (d + 16 * i)
       = mm128_bswap_32 t (load 16 m (s + 16 * i))) /\
  (d <= s \/ s + 64 * 8 <= d ->
     load 64 (mm512_block_bswap_64 m d s) (d + 64 * i)
       = mm512_bswap_64 (load 64 m (s + 64 * i)) /\
     load 64 (mm512_block_bswap_32 m d s) (d + 64 * i)
       = mm512_bswap_32 (load 64 m (s + 64 * i))).
Proof.
  intros Hi. split; intros Hd.
  - destruct (block_bswap_128_fold t m d s) as [E64 E32]. rewrite E64, E32.
    split.
    + apply (slot_fold_result 16 (fun _ x => mm128_bswap_64 t x) d s m
               ltac:(lia) (fun _ x _ => proj1 (vec_bswap_128 t x)) 8 8 i); lia.
    + apply (slot_fold_result 16 (fun _ x => mm128_bswap_32 t x) d s m
               ltac:(lia) (fun _ x _ => proj2 (vec_bswap_128 t x)) 8 8 i); lia.
  - unfold mm512_block_bswap_64, mm512_block_bswap_32, mm512_bswap_64,
      mm512_bswap_32. cbv zeta.
    split.
    + apply (slot_fold_result 64
               (fun _ x => _mm512_shuffle_epi8 x _) d s m
               ltac:(lia) (fun _ x _ => vec_shuffle512_epi8 x _) 8 8 i); lia.
    + apply (slot_fold_result 64
               (fun _ x => _mm512_shuffle_epi8 x _) d s m
               ltac:(lia) (fun _ x _ => vec_shuffle512_epi8 x _) 8 8 i); lia.
Qed.

Lemma block_bswap_is_slotwise_witness :
  0 <= 3 < 8 /\ (0 <= 0 \/ 0 + 16 * 8 <= 0) /\
  load 16 (mm128_block_bswap_32 tier_sse2 (fun x => x) 0 0) (0 + 16 * 3)
  = mm128_bswap_32 tier_sse2 (load 16 (fun x => x) (0 + 16 * 3)).
Proof.
  split; [lia|]. split; [lia|].
  destruct (block_bswap_is_slotwise tier_sse2 (fun x => x) 0 0 3) as [H _];
    [lia|].
  destruct H as [_ H]; [lia | exact H].
Defined.

(** X11.  The block byte swaps write inside the eight destination slots only. *)
Theorem block_bswap_frame (t : tier) (m : mem) (d s x : Z) :
  (~ (d <= x < d + 16 * 8) ->
     mm128_block_bswap_64 t m d s x = m x /\
     mm128_block_bswap_32 t m d s x = m x) /\
  (~ (d <= x < d + 64 * 8) ->
     mm512_block_bswap_64 m d s x = m x /\
     mm512_block_bswap_32 m d s x = m x).
Proof.
  split; intros Hx.
  - destruct (block_bswap_128_fold t m d s) as [E64 E32]. rewrite E64, E32.
    split.
    + apply (slot_fold_frame 16 (fun _ x => mm128_bswap_64 t x) d s m ltac:(lia) 8 x). lia.
    + apply (slot_fold_frame 16 (fun _ x => mm128_bswap_32 t x) d s m ltac:(lia) 8 x). lia.
  - unfold mm512_block_bswap_64, mm512_block_bswap_32. cbv zeta. split.
    + apply (slot_fold_frame 64 (fun _ x => _mm512_shuffle_epi8 x _) d s m
               ltac:(lia) 8 x). lia.
    + apply (slot_fold_frame 64 (fun _ x => _mm512_shuffle_epi8 x _) d s m
               ltac:(lia) 8 x). lia.
Qed.

Lemma block_bswap_frame_witness :
  ~ (0 <= 200 < 0 + 16 * 8) /\
  mm128_block_bswap_64 tier_ssse3 (fun x => x) 0 0 200 = 200.
Proof.
  split; [lia|].
  destruct (block_bswap_frame tier_ssse3 (fun x => x) 0 0 200) as [H _].
  destruct H as [H _]; [lia | exact H].
Defined.

(** ** Further constants *)

Lemma lane_small (w i x : Z) :
  0 < w -> 0 < i -> 0 <= x < 2 ^ w -> lane w i x = 0.
Proof.
  intros Hw Hi Hx. apply Z.bits_inj'. intros b Hb.
  rewrite testbit_lane, Z.testbit_0_l by lia.
  rewrite (testbit_high w x) by (unfold vec; trivial; nia).
  apply andb_false_r.
Qed.

(** X25.  [m128_const_64 hi lo] holds [lo] in element 0 and [hi] in element 1 at
    every tier; [m128_const1_64 i] holds [i] in both 64 bit elements; the
    pattern of [m512_const4_64] is repeated in the upper 256 bits. *)
Theorem constants_of_64_bit_elements (t : tier) (hi lo i3 i2 i1 i0 : Z) :
  u64 hi -> u64 lo -> u64 i3 -> u64 i2 -> u64 i1 -> u64 i0 ->
  (lane 64 0 (m128_const_64 t hi lo) = lo /\
   lane 64 1 (m128_const_64 t hi lo) = hi) /\
  (lane 64 0 (m128_const1_64 lo) = lo /\ lane 64 1 (m128_const1_64 lo) = lo) /\
  (forall j, 0 <= j < 8 ->
     lane 64 j (m512_const4_64 i3 i2 i1 i0)
     = nth (Z.to_nat (j mod 4)) [i0; i1; i2; i3] 0).
Proof.
  intros Hhi Hlo H3 H2 H1 H0.
  assert (S : forall x, u64 x -> Z.land x (Z.ones 64) = x).
  { intros x Hx. apply land_ones_small; [lia | exact Hx]. }
  split; [|split].
  - rewrite m128_const_64_set. unfold _mm_set_epi64x.
    split; rewrite lane_pack by lia.
    + change (nth (Z.to_nat 0) [lo; hi] 0) with lo. auto.
    + change (nth (Z.to_nat 1) [lo; hi] 0) with hi. auto.
  - unfold m128_const1_64, _mm_shuffle_epi32, mm128_mov64_128.
    rewrite (S lo Hlo).
    rewrite !(lane_as_sublanes 32 2) by lia.
    assert (E : forall j, 0 <= j < 4 ->
              lane 32 j (build 32 4 (fun j0 => lane 32 (lane 2 j0 (imm8 0x44)) lo))
              = lane 32 (j mod 2) lo).
    { intros j Hj. rewrite lane_build by lia. rewrite land_lane_ones.
      assert (C : j = 0 \/ j = 1 \/ j = 2 \/ j = 3) by lia.
      destruct C as [C|[C|[C|C]]]; subst j; reflexivity. }
    split;
      (transitivity (build 32 2 (fun r => lane 32 r lo));
       [|apply build_lanes; [lia | exact Hlo]]);
      apply build_eq; intros r Hr; rewrite E by lia; f_equal;
      assert (R : r = 0 \/ r = 1) by lia; destruct R; subst r; reflexivity.
  - intros j Hj. unfold m512_const4_64. rewrite lane_pack by lia.
    assert (C : j = 0 \/ j = 1 \/ j = 2 \/ j = 3 \/ j = 4 \/ j = 5 \/ j = 6 \/
                j = 7) by lia.
    repeat (destruct C as [C|C];
      [subst j;
       match goal with |- Z.land ?a _ = ?b =>
         let a' := eval cbv in a in let b' := eval cbv in b in
         change a with a'; change b with b' end; auto|]).
    subst j.
    match goal with |- Z.land ?a _ = ?b =>
      let a' := eval cbv in a in let b' := eval cbv in b in
      change a with a'; change b with b' end; auto.
Qed.

Lemma constants_of_64_bit_elements_witness :
  u64 7 /\ u64 9 /\ lane 64 1 (m128_const_64 tier_sse41 7 9) = 7.
Proof.
  split; [apply u64_intro; reflexivity|].
  split; [apply u64_intro; reflexivity|].
  destruct (constants_of_64_bit_elements tier_sse41 7 9 3 2 1 0)
    as [[_ H] _]; try (apply u64_intro; reflexivity).
  exact H.
Defined.

Lemma lane_0_land (w w' x : Z) :
  0 < w <= w' -> lane w 0 (Z.land x (Z.ones w')) = Z.land x (Z.ones w).
Proof.
  intros Hw. apply Z.bits_inj'. intros b Hb.
  rewrite testbit_lane by lia.
  rewrite !Z.land_spec, !Z.testbit_ones_nonneg by lia.
  rewrite Z.mul_0_r, Z.add_0_r.
  destruct (Z.ltb_spec b w), (Z.ltb_spec b w'), (Z.testbit x b);
    try reflexivity; lia.
Qed.

(** X26.  The 512 bit broadcasts hold the low bits of their argument in every
    element: the whole [uint64_t] or [uint32_t], or its low 16 or 8 bits.
    [m512_const1_128] holds its 128 bit argument in all four lanes,
    whatever the cast to 512 bits left in the upper bits. *)
Theorem broadcasts_512 (i undef v j : Z) :
  (0 <= j < 8 -> lane 64 j (m512_const1_64 i) = Z.land i (Z.ones 64)) /\
  (0 <= j < 16 -> lane 32 j (m512_const1_32 i) = Z.land i (Z.ones 32)) /\
  (0 <= j < 32 -> lane 16 j (m512_const1_16 i) = Z.land i (Z.ones 16)) /\
  (0 <= j < 64 -> lane 8 j (m512_const1_8 i) = Z.land i (Z.ones 8)) /\
  (0 <= j < 4 ->
     lane 128 j (m512_const1_128 undef v) = Z.land v (Z.ones 128)).
Proof.
  unfold m512_const1_64, m512_const1_32, m512_const1_16, m512_const1_8,
    _mm512_broadcastq_epi64, _mm512_broadcastd_epi32, _mm512_broadcastw_epi16,
    _mm512_broadcastb_epi8, pbroadcast, mm128_mov64_128, mm128_mov32_128.
  repeat apply conj; intros Hj.
  - rewrite lane_build, land_lane_ones by lia. apply lane_0_land. lia.
  - rewrite lane_build, land_lane_ones by lia. apply lane_0_land. lia.
  - rewrite lane_build, land_lane_ones by lia. apply lane_0_land. lia.
  - rewrite lane_build, land_lane_ones by lia. apply lane_0_land. lia.
  - unfold m512_const1_128, mm512_perm_128, _mm512_shuffle_i64x2.
    rewrite lane_build by lia.
    change (imm8 0) with 0. rewrite lane_0_l.
    assert (E : lane 128 0 (_mm512_castsi128_si512 undef v)
                = Z.land v (Z.ones 128)).
    { unfold _mm512_castsi128_si512. rewrite lane_pack by lia. reflexivity. }
    rewrite E. destruct (j <? 2);
      rewrite <- Z.land_assoc, Z.land_diag; reflexivity.
Qed.

Lemma broadcasts_512_witness :
  0 <= 5 < 32 /\
  lane 16 5 (m512_const1_16 0x12345678) = Z.land 0x12345678 (Z.ones 16).
Proof.
  split; [lia|].
  destruct (broadcasts_512 0x12345678 0 0 5) as [_ [_ [H _]]].
  apply H. lia.
Defined.

(** ** Uses of the extract-insert-mask operation *)

Lemma lane_xim_32 (v1 v2 c j : Z) :
  0 <= c < 256 -> 0 <= j < 4 ->
  lane 32 j (mm128_xim_32 v1 v2 c) =
  if Z.testbit c j then 0
  else if j =? lane 2 2 c then lane 32 (lane 2 3 c) v2 else lane 32 j v1.
Proof.
  intros Hc Hj.
  unfold mm128_xim_32, _mm_castps_si128, _mm_castsi128_ps, _mm_insert_ps.
  rewrite imm8_small by exact Hc. rewrite lane_build by lia.
  destruct (Z.testbit c j); [reflexivity|].
  destruct (j =? lane 2 2 c); apply land_lane_ones.
Qed.

Lemma small_cases_16 (m : Z) (P : Z -> Prop) :
  0 <= m < 16 ->
  P 0 -> P 1 -> P 2 -> P 3 -> P 4 -> P 5 -> P 6 -> P 7 ->
  P 8 -> P 9 -> P 10 -> P 11 -> P 12 -> P 13 -> P 14 -> P 15 -> P m.
Proof.
  intros Hm. intros.
  assert (C : m = 0 \/ m = 1 \/ m = 2 \/ m = 3 \/ m = 4 \/ m = 5 \/ m = 6 \/
              m = 7 \/ m = 8 \/ m = 9 \/ m = 10 \/ m = 11 \/ m = 12 \/
              m = 13 \/ m = 14 \/ m = 15) by lia.
  repeat (destruct C as [C|C]; [subst m; assumption|]). subst m. assumption.
Qed.

(** X27.  [mm128_mask_32( v, m )] with a 4 bit mask clears exactly the 32 bit
    elements whose mask bit is set; [mm128_shuflmov_32( v1, i1, v2, i2 )]
    is [v1] with element [i1] replaced by element [i2] of [v2]. *)
Theorem mask_and_move_32 (v v1 v2 m i1 i2 j : Z) :
  0 <= j < 4 ->
  (0 <= m < 16 ->
     lane 32 j (mm128_mask_32 v m) = if Z.testbit m j then 0 else lane 32 j v) /\
  (0 <= i1 < 4 -> 0 <= i2 < 4 ->
     lane 32 j (mm128_shuflmov_32 v1 i1 v2 i2) =
     if j =? i1 then lane 32 i2 v2 else lane 32 j v1).
Proof.
  intros Hj. split.
  - intros Hm. unfold mm128_mask_32. rewrite lane_xim_32 by lia.
    destruct (Z.testbit m j); [reflexivity|].
    assert (E : lane 2 2 m = 0 /\ lane 2 3 m = 0).
    { apply (small_cases_16 m (fun m => lane 2 2 m = 0 /\ lane 2 3 m = 0) Hm);
        split; reflexivity. }
    destruct E as [E2 E3]. rewrite E2, E3.
    destruct (Z.eqb_spec j 0); [subst j|]; reflexivity.
  - intros H1 H2. unfold mm128_shuflmov_32.
    set (c := Z.lor (Z.shiftl i1 4) (Z.shiftl i2 6)).
    assert (E : 0 <= c < 256 /\ lane 2 2 c = i1 /\ lane 2 3 c = i2 /\
                Z.testbit c j = false).
    { subst c.
      assert (C1 : i1 = 0 \/ i1 = 1 \/ i1 = 2 \/ i1 = 3) by lia.
      assert (C2 : i2 = 0 \/ i2 = 1 \/ i2 = 2 \/ i2 = 3) by lia.
      assert (Cj : j = 0 \/ j = 1 \/ j = 2 \/ j = 3) by lia.
      destruct C1 as [C|[C|[C|C]]]; subst i1;
        destruct C2 as [C|[C|[C|C]]]; subst i2;
        destruct Cj as [C|[C|[C|C]]]; subst j;
        (split; [split; [discriminate | reflexivity] | repeat split]). }
    destruct E as [Hc [E2 [E3 Et]]].
    rewrite lane_xim_32 by lia. rewrite Et, E2, E3. reflexivity.
Qed.

Lemma mask_and_move_32_witness :
  0 <= 1 < 4 /\ 0 <= 0xa < 16 /\
  lane 32 1 (mm128_mask_32 0x00112233445566778899aabbccddeeff 0xa)
  = if Z.testbit 0xa 1 then 0
    else lane 32 1 0x00112233445566778899aabbccddeeff.
Proof.
  split; [lia|]. split; [lia|].
  destruct (mask_and_move_32 0x00112233445566778899aabbccddeeff 0 0 0xa 0 0 1)
    as [H _]; [lia|].
  apply H. lia.
Defined.

(** ** Bitwise complement *)

Lemma testbit_mm128_not (v n : Z) :
  0 <= n < 128 -> Z.testbit (mm128_not v) n = negb (Z.testbit v n).
Proof.
  intros Hn. unfold mm128_not, _mm_xor_si128, m128_neg1.
  rewrite Z.lxor_spec, Z.testbit_ones_nonneg by lia.
  destruct (Z.ltb_spec n 128); [|lia]. apply xorb_true_r.
Qed.

Lemma testbit_mm512_not (v n : Z) :
  0 <= n < 512 -> Z.testbit (mm512_not v) n = negb (Z.testbit v n).
Proof.
  intros Hn. unfold mm512_not. rewrite testbit_ternary512 by exact Hn.
  unfold tt_index, bit. destruct (Z.testbit v n); reflexivity.
Qed.

(** X6.  [mm128_not] and [mm512_not] complement every bit of the register, stay
    inside the register, and applied twice give the vector back. *)
Theorem not_complements (v128 v512 n : Z) :
  vec 128 v128 -> vec 512 v512 ->
  (0 <= n < 128 -> Z.testbit (mm128_not v128) n = negb (Z.testbit v128 n)) /\
  (0 <= n < 512 -> Z.testbit (mm512_not v512) n = negb (Z.testbit v512 n)) /\
  vec 128 (mm128_not v128) /\ vec 512 (mm512_not v512) /\
  mm128_not (mm128_not v128) = v128 /\
  mm512_not (mm512_not v512) = v512.
Proof.
  intros H128 H512.
  assert (V128 : vec 128 (mm128_not v128)).
  { unfold mm128_not, _mm_xor_si128, m128_neg1.
    apply vec_of_bits; [lia | |].
    - apply Z.lxor_nonneg. unfold vec in H128. split; intros _; [|lia].
      rewrite Z.ones_equiv. apply Z.lt_le_pred. apply Z.pow_pos_nonneg; lia.
    - intros m Hm. rewrite Z.lxor_spec.
      rewrite (testbit_high 128 v128), Z.testbit_ones_nonneg by (trivial; lia).
      destruct (Z.ltb_spec m 128); [lia | reflexivity]. }
  assert (V512 : vec 512 (mm512_not v512)) by apply (vec_build 64 ltac:(lia) 8).
  split; [apply testbit_mm128_not|].
  split; [apply testbit_mm512_not|].
  split; [exact V128|]. split; [exact V512|]. split.
  - apply Z.bits_inj'. intros m Hm. destruct (Z.ltb_spec m 128).
    + rewrite !testbit_mm128_not by lia. apply negb_involutive.
    + unfold mm128_not at 1. unfold _mm_xor_si128, m128_neg1.
      rewrite Z.lxor_spec, Z.testbit_ones_nonneg by lia.
      rewrite (testbit_high 128 _ m ltac:(lia) V128),
        (testbit_high 128 v128) by (trivial; lia).
      destruct (Z.ltb_spec m 128); [lia | reflexivity].
  - apply Z.bits_inj'. intros m Hm. destruct (Z.ltb_spec m 512).
    + rewrite !testbit_mm512_not by lia. apply negb_involutive.
    + rewrite (testbit_high 512 v512) by (trivial; lia).
      apply (testbit_high 512); [lia | apply (vec_build 64 ltac:(lia) 8) | lia].
Qed.

Lemma not_complements_witness :
  vec 128 5 /\ vec 512 6 /\ mm512_not (mm512_not 6) = 6.
Proof.
  split; [apply vec_intro; reflexivity|].
  split; [apply vec_intro; reflexivity|].
  destruct (not_complements 5 6 0) as [_ [_ [_ [_ [_ H]]]]];
    [apply vec_intro; reflexivity | apply vec_intro; reflexivity | exact H].
Defined.

(** ** Wrapping sums and negation *)

Section ElementArithmetic.

Variable w : Z.
Variable n : nat.
Hypothesis w_pos : 0 < w.


Lemma lane_psub (a b j : Z) :
  0 <= j < Z.of_nat n ->
  lane w j (psub w n a b) = (lane w j a - lane w j b) mod 2 ^ w.
Proof.
  intros Hj. unfold psub. rewrite lane_build by assumption.
  apply Z.land_ones. lia.
Qed.



(** A vector plus its negation is zero. *)
Lemma padd_negate (v : Z) : padd w n v (psub w n 0 v) = 0.
Proof.
  transitivity (build w n (fun _ => 0)); [|apply build_zero].
  unfold padd. apply build_ext. intros j Hj.
  rewrite lane_psub, lane_0_l by assumption.
  rewrite !Z.land_ones by lia. rewrite Zplus_mod_idemp_r.
  replace (lane w j v + (0 - lane w j v)) with 0 by ring. reflexivity.
Qed.

End ElementArithmetic.



(** X7.  The element-wise negations are additive inverses: a vector plus its
    negation is the zero vector, for every element width and both
    register widths. *)
Theorem negate_is_additive_inverse (v : Z) :
  _mm_add_epi64 v (mm128_negate_64 v) = 0 /\
  _mm_add_epi32 v (mm128_negate_32 v) = 0 /\
  _mm_add_epi16 v (mm128_negate_16 v) = 0 /\
  _mm512_add_epi64 v (mm512_negate_64 v) = 0 /\
  _mm512_add_epi32 v (mm512_negate_32 v) = 0 /\
  _mm512_add_epi16 v (mm512_negate_16 v) = 0.
Proof.
  repeat apply conj; apply padd_negate; lia.
Qed.

(** ** Exchange of two vectors by three XORs *)

(** X22.  [mm128_swap256_128( v1, v2 )] exchanges the two objects and touches no
    other when they are distinct objects; when both arguments name the same
    object it clears it. *)
Theorem xor_swap_exchanges_or_clears (a b : nat) (e : vars) :
  (a <> b ->
     mm128_swap256_128 a b e a = e b /\
     mm128_swap256_128 a b e b = e a /\
     (forall x, x <> a -> x <> b -> mm128_swap256_128 a b e x = e x)) /\
  (a = b -> mm128_swap256_128 a b e a = 0).
Proof.
  unfold mm128_swap256_128, assign, _mm_xor_si128. cbv zeta. split.
  - intros Hab.
    assert (Eab : Nat.eqb a b = false) by (apply Nat.eqb_neq; exact Hab).
    assert (Eba : Nat.eqb b a = false) by (apply Nat.eqb_neq; auto).
    repeat apply conj.
    + rewrite !Nat.eqb_refl, ?Eab, ?Eba.
      apply Z.bits_inj'; intros n Hn; rewrite !Z.lxor_spec;
        destruct (Z.testbit (e a) n), (Z.testbit (e b) n); reflexivity.
    + rewrite !Nat.eqb_refl, ?Eab, ?Eba.
      apply Z.bits_inj'; intros n Hn; rewrite !Z.lxor_spec;
        destruct (Z.testbit (e a) n), (Z.testbit (e b) n); reflexivity.
    + intros x Hxa Hxb.
      assert (Exa : Nat.eqb x a = false) by (apply Nat.eqb_neq; exact Hxa).
      assert (Exb : Nat.eqb x b = false) by (apply Nat.eqb_neq; exact Hxb).
      rewrite Exa, Exb. reflexivity.
  - intros <-. rewrite !Nat.eqb_refl. rewrite !Z.lxor_nilpotent. reflexivity.
Qed.

Lemma xor_swap_exchanges_or_clears_witness :
  0%nat <> 1%nat /\
  mm128_swap256_128 0 1 (fun x => Z.of_nat x + 5) 0%nat
  = (fun x => Z.of_nat x + 5) 1%nat.
Proof.
  split; [discriminate|].
  destruct (xor_swap_exchanges_or_clears 0 1 (fun x => Z.of_nat x + 5))
    as [H _].
  destruct H as [H _]; [discriminate | exact H].
Defined.

(** ** Rotation by a number of elements *)

Lemma small_cases_8 (m : Z) (P : Z -> Prop) :
  0 <= m < 8 ->
  P 0 -> P 1 -> P 2 -> P 3 -> P 4 -> P 5 -> P 6 -> P 7 -> P m.
Proof.
  intros Hm. intros.
  assert (C : m = 0 \/ m = 1 \/ m = 2 \/ m = 3 \/ m = 4 \/ m = 5 \/ m = 6 \/
              m = 7) by lia.
  repeat (destruct C as [C|C]; [subst m; assumption|]). subst m. assumption.
Qed.

Lemma shuflr_64_step (v k : Z) :
  0 <= k < 8 ->
  mm512_shuflr_64 (gather 64 8 (src_rot 8 k) v)
  = gather 64 8 (src_rot 8 ((k + 1) mod 8)) v.
Proof.
  intros Hk. unfold mm512_shuflr_64.
  rewrite alignr_epi64_rot by (apply (vec_gather 64); lia).
  apply (small_cases_8 k (fun k =>
    gather 64 8 (src_rot 8 (Z.land 1 7)) (gather 64 8 (src_rot 8 k) v)
    = gather 64 8 (src_rot 8 ((k + 1) mod 8)) v) Hk);
    (rewrite (gather_gather 64 ltac:(lia)) by closed_check;
     apply gather_same_src; closed_check).
Qed.

Lemma shuflr_32_step (v k : Z) :
  0 <= k < 16 ->
  mm512_shuflr_32 (gather 32 16 (src_rot 16 k) v)
  = gather 32 16 (src_rot 16 ((k + 1) mod 16)) v.
Proof.
  intros Hk. unfold mm512_shuflr_32.
  rewrite alignr_epi32_rot by (apply (vec_gather 32); lia).
  apply (small_cases_16 k (fun k =>
    gather 32 16 (src_rot 16 (Z.land 1 15)) (gather 32 16 (src_rot 16 k) v)
    = gather 32 16 (src_rot 16 ((k + 1) mod 16)) v) Hk);
    (rewrite (gather_gather 32 ltac:(lia)) by closed_check;
     apply gather_same_src; closed_check).
Qed.

Lemma iterate_shuflr_64 (v : Z) (n : nat) :
  vec 512 v ->
  iterate n mm512_shuflr_64 v = gather 64 8 (src_rot 8 (Z.of_nat n mod 8)) v.
Proof.
  intros Hv. induction n as [|n IH].
  - cbn [iterate]. symmetry. apply gather_id; [lia | exact Hv |].
    intros j Hj. unfold src_rot. change (Z.of_nat 0 mod 8) with 0.
    destruct (Z.ltb_spec (j + 0) 8); [f_equal; lia | lia].
  - cbn [iterate]. rewrite IH.
    rewrite shuflr_64_step by (apply Z.mod_pos_bound; lia).
    rewrite Zplus_mod_idemp_l. do 3 f_equal. lia.
Qed.

Lemma iterate_shuflr_32 (v : Z) (n : nat) :
  vec 512 v ->
  iterate n mm512_shuflr_32 v = gather 32 16 (src_rot 16 (Z.of_nat n mod 16)) v.
Proof.
  intros Hv. induction n as [|n IH].
  - cbn [iterate]. symmetry. apply gather_id; [lia | exact Hv |].
    intros j Hj. unfold src_rot. change (Z.of_nat 0 mod 16) with 0.
    destruct (Z.ltb_spec (j + 0) 16); [f_equal; lia | lia].
  - cbn [iterate]. rewrite IH.
    rewrite shuflr_32_step by (apply Z.mod_pos_bound; lia).
    rewrite Zplus_mod_idemp_l. do 3 f_equal. lia.
Qed.

Lemma land_low_mod (c k : Z) : 0 <= k -> Z.land c (Z.ones k) = c mod 2 ^ k.
Proof. intros Hk. apply Z.land_ones. exact Hk. Qed.

(** X16.  The rotation by [n] elements is [n] single element rotations, for
    every [n >= 0]: the count is taken modulo the number of elements, so a
    rotation by the number of elements (8 of 64 bits, 16 of 32 bits) gives
    the vector back. *)
Theorem shuflr_x_is_repeated_shuflr (v : Z) (n : nat) :
  vec 512 v ->
  mm512_shuflr_x64 v (Z.of_nat n) = iterate n mm512_shuflr_64 v /\
  mm512_shuflr_x32 v (Z.of_nat n) = iterate n mm512_shuflr_32 v /\
  mm512_shuflr_x64 v 8 = v /\
  mm512_shuflr_x32 v 16 = v /\
  iterate 8 mm512_shuflr_64 v = v /\
  iterate 16 mm512_shuflr_32 v = v.
Proof.
  intros Hv.
  assert (I64 : gather 64 8 (src_rot 8 0) v = v).
  { apply gather_id; [lia | exact Hv |]. intros j Hj. unfold src_rot.
    destruct (Z.ltb_spec (j + 0) 8); [f_equal; lia | lia]. }
  assert (I32 : gather 32 16 (src_rot 16 0) v = v).
  { apply gather_id; [lia | exact Hv |]. intros j Hj. unfold src_rot.
    destruct (Z.ltb_spec (j + 0) 16); [f_equal; lia | lia]. }
  unfold mm512_shuflr_x64, mm512_shuflr_x32.
  rewrite !alignr_epi64_rot, !alignr_epi32_rot by exact Hv.
  rewrite !iterate_shuflr_64, !iterate_shuflr_32 by exact Hv.
  change 7 with (Z.ones 3). change 15 with (Z.ones 4).
  rewrite !land_low_mod by lia.
  repeat apply conj; try reflexivity; assumption.
Qed.

Lemma shuflr_x_is_repeated_shuflr_witness :
  vec 512 0x00112233445566778899aabbccddeeff /\
  mm512_shuflr_x64 0x00112233445566778899aabbccddeeff (Z.of_nat 3)
  = iterate 3 mm512_shuflr_64 0x00112233445566778899aabbccddeeff.
Proof.
  split; [apply vec_intro; reflexivity|].
  destruct (shuflr_x_is_repeated_shuflr 0x00112233445566778899aabbccddeeff 3)
    as [H _]; [apply vec_intro; reflexivity | exact H].
Defined.

(** X17.  [mm128_shuflr_x8( v, c )] rotates the 16 bytes right by [c] for [c]
    up to 16 (so 0 and 16 give [v] back); for [c] from 17 to 31 the bytes
    are shifted, not rotated: the result is [v] shifted right by [c - 16]
    bytes; from 32 on it is the zero vector. *)
Theorem shuflr_x8_by_count (v c : Z) :
  vec 128 v ->
  (0 <= c <= 16 -> mm128_shuflr_x8 v c = gather 8 16 (src_rot 16 c) v) /\
  mm128_shuflr_x8 v 0 = v /\ mm128_shuflr_x8 v 16 = v /\
  (16 < c < 32 -> mm128_shuflr_x8 v c = Z.shiftr v (8 * (c - 16))) /\
  (32 <= c < 256 -> mm128_shuflr_x8 v c = 0).
Proof.
  intros Hv.
  assert (R : forall k, 0 <= k <= 16 ->
            mm128_shuflr_x8 v k = gather 8 16 (src_rot 16 k) v).
  { intros k Hk. unfold mm128_shuflr_x8, _mm_alignr_epi8.
    rewrite imm8_small by lia. rewrite (Z.mul_comm k 8).
    apply (concat_shift_rot 8 16 v k); [lia | lia | exact Hv]. }
  split; [exact (R c)|]. split; [|split; [|split]].
  - rewrite R by lia. apply gather_id; [lia | exact Hv |].
    intros j Hj. unfold src_rot.
    destruct (Z.ltb_spec (j + 0) 16); [f_equal; lia | lia].
  - rewrite R by lia. apply gather_id; [lia | exact Hv |].
    intros j Hj. unfold src_rot.
    destruct (Z.ltb_spec (j + 16) 16); [lia | f_equal; lia].
  - intros Hc. unfold mm128_shuflr_x8, _mm_alignr_epi8.
    rewrite imm8_small by lia.
    apply Z.bits_inj'. intros b Hb.
    rewrite Z.land_spec, !Z.shiftr_spec, Z.lor_spec, Z.shiftl_spec by lia.
    rewrite Z.testbit_ones_nonneg by lia.
    rewrite (testbit_high 128 v (b + c * 8)) by (trivial; lia).
    rewrite orb_false_r.
    replace (b + c * 8 - 128) with (b + 8 * (c - 16)) by ring.
    destruct (Z.ltb_spec b 128); [apply andb_true_r|].
    rewrite (testbit_high 128 v) by (trivial; lia). reflexivity.
  - intros Hc. unfold mm128_shuflr_x8, _mm_alignr_epi8.
    rewrite imm8_small by lia.
    apply Z.bits_inj'. intros b Hb.
    rewrite Z.land_spec, !Z.shiftr_spec, Z.lor_spec, Z.shiftl_spec by lia.
    rewrite Z.testbit_0_l.
    rewrite (testbit_high 128 v (b + c * 8)),
      (testbit_high 128 v (b + c * 8 - 128)) by (trivial; lia).
    reflexivity.
Qed.

Lemma shuflr_x8_by_count_witness :
  vec 128 0x00112233445566778899aabbccddeeff /\ 16 < 20 < 32 /\
  mm128_shuflr_x8 0x00112233445566778899aabbccddeeff 20
  = Z.shiftr 0x00112233445566778899aabbccddeeff (8 * (20 - 16)).
Proof.
  split; [apply vec_intro; reflexivity|]. split; [lia|].
  destruct (shuflr_x8_by_count 0x00112233445566778899aabbccddeeff 20)
    as [_ [_ [_ [H _]]]]; [apply vec_intro; reflexivity|].
  apply H. lia.
Defined.
